(** * Echotales asset tools: cover extractor and catalog generator

    A shallow embedding of [extract_covers.py] and [generate_catalog.py]
    (iOS/AIReadingApp) together with the properties of their specification.

    Text is modelled as [string] (one [ascii] per character, ASCII text);
    byte strings as [list Byte.byte]; Python dictionaries as [gmap];
    the output directory as a finite map from file names to contents;
    a raised exception as [None] in the [option] monad. Opening and
    writing files is taken to succeed, the entries of the input directory
    are files whose size can be read, and a book that [epub.read_epub]
    returned answers every metadata and item query without raising. *)

From Stdlib Require Import ZArith NArith Ascii String List Lia Bool.
From Stdlib.Strings Require Import Byte.
From stdpp Require Import base option list strings gmap sorting.

Local Open Scope Z_scope.

(** ** Python string primitives *)

Module PyStr.

Definition is_upper (c : ascii) : bool :=
  let n := N_of_ascii c in (N.leb 65 n && N.leb n 90)%N.

Definition is_lower (c : ascii) : bool :=
  let n := N_of_ascii c in (N.leb 97 n && N.leb n 122)%N.

Definition lower_char (c : ascii) : ascii :=
  if is_upper c then ascii_of_N (N_of_ascii c + 32) else c.

Definition upper_char (c : ascii) : ascii :=
  if is_lower c then ascii_of_N (N_of_ascii c - 32) else c.

(** [str.lower()] *)
Fixpoint lower (s : string) : string :=
  match s with
  | EmptyString => EmptyString
  | String c s' => String (lower_char c) (lower s')
  end.

(** [sub in s] *)
Fixpoint contains (sub s : string) : bool :=
  String.prefix sub s ||
  match s with
  | EmptyString => false
  | String _ s' => contains sub s'
  end.

(** [any(word in s for word in words)] *)
Definition any_in (words : list string) (s : string) : bool :=
  existsb (fun word => contains word s) words.

(** [sep.join(l)] *)
Definition join (sep : string) (l : list string) : string :=
  String.concat sep l.

(** [str.replace(old, new)]: left to right, occurrences do not overlap.
    [skip] counts the characters of a matched occurrence still to drop. *)
Fixpoint replace_go (old new : string) (skip : nat) (s : string) : string :=
  match s with
  | EmptyString => EmptyString
  | String c s' =>
      match skip with
      | S k => replace_go old new k s'
      | O =>
          if String.prefix old s
          then new +:+ replace_go old new (String.length old - 1) s'
          else String c (replace_go old new 0 s')
      end
  end.

Fixpoint intersperse (new s : string) : string :=
  match s with
  | EmptyString => new
  | String c s' => new +:+ String c (intersperse new s')
  end.

Definition replace (old new s : string) : string :=
  match old with
  | EmptyString => intersperse new s
  | _ => replace_go old new 0 s
  end.

(** [str.title()]: a cased character is upper-cased when it starts a run
    of cased characters and lower-cased inside one. *)
Fixpoint title_go (previous_is_cased : bool) (s : string) : string :=
  match s with
  | EmptyString => EmptyString
  | String c s' =>
      if is_lower c then
        String (if previous_is_cased then c else upper_char c) (title_go true s')
      else if is_upper c then
        String (if previous_is_cased then lower_char c else c) (title_go true s')
      else String c (title_go false s')
  end.

Definition title (s : string) : string := title_go false s.

(** [str.rfind(c)] for a one-character needle; [i] is the index of the
    head of [s]. *)
Fixpoint rfind (c : ascii) (s : string) (i : nat) : option nat :=
  match s with
  | EmptyString => None
  | String a s' =>
      match rfind c s' (S i) with
      | Some j => Some j
      | None => if Ascii.eqb a c then Some i else None
      end
  end.

(** [str.isspace()] on one character *)
Definition is_space (c : ascii) : bool :=
  let n := N_of_ascii c in
  ((N.leb 9 n && N.leb n 13) || (N.leb 28 n && N.leb n 32))%N.

(** [str.split()] with no argument: maximal runs of non-blank characters.
    [cur] is the word being read, reversed. *)
Fixpoint split_go (cur : option string) (s : string) : list string :=
  match s with
  | EmptyString => option_list (String.rev <$> cur)
  | String a s' =>
      if is_space a
      then option_list (String.rev <$> cur) ++ split_go None s'
      else split_go (Some (String a (default EmptyString cur))) s'
  end.

Definition split (s : string) : list string := split_go None s.

(** Truthiness of a possibly-[None] string, and [x or y]. *)
Definition truthy (x : option string) : bool :=
  match x with
  | Some (String _ _) => true
  | _ => false
  end.

Definition or_else (x : option string) (y : string) : string :=
  match x with
  | Some (String c s) => String c s
  | _ => y
  end.

End PyStr.

(** ** Paths *)

(** A path inside one directory is modelled by its final component. *)
Module PyPath.

(** [PurePath.stem]: the name without its last suffix. *)
Definition stem (name : string) : string :=
  match PyStr.rfind "."%char name 0 with
  | Some i =>
      if (Nat.ltb 0 i && Nat.ltb i (String.length name - 1))%nat
      then String.substring 0 i name
      else name
  | None => name
  end.

(** [fnmatch(name, "*.epub")] *)
Definition is_epub_name (name : string) : bool :=
  let n := String.length name in
  (Nat.leb 5 n && String.eqb (String.substring (n - 5) 5 name) ".epub")%nat.

End PyPath.

(** ** EPUB containers as read by ebooklib *)

Definition bytes := list byte.

Module Epub.

(** The item kinds of ebooklib ([ebooklib.ITEM_*], values 0 to 11). *)
Inductive ItemType :=
| ITEM_UNKNOWN | ITEM_IMAGE | ITEM_STYLE | ITEM_SCRIPT | ITEM_NAVIGATION
| ITEM_VECTOR | ITEM_FONT | ITEM_VIDEO | ITEM_AUDIO | ITEM_DOCUMENT
| ITEM_COVER | ITEM_SMIL.

Global Instance ItemType_eq_dec : EqDecision ItemType.
Proof. solve_decision. Defined.

Record Item := {
  get_type : ItemType;
  get_id : string;
  get_name : string;
  get_content : bytes;
}.

(** [book.get_metadata(namespace, name)]: a list of (value, attributes). *)
Definition Metadata := list (option string * gmap string string).

Record Book := {
  get_items : list Item;
  get_metadata : string -> string -> Metadata;
}.

(** [meta[0][0] if meta else None] *)
Definition first_value (meta : Metadata) : option string :=
  match meta with
  | [] => None
  | (value, _) :: _ => value
  end.

(** A file of the input directory: its name, what [epub.read_epub] makes
    of it ([None] when it raises) and its size in bytes. *)
Record File := {
  name : string;
  read_epub : option Book;
  getsize : Z;
}.

Definition name_le (a b : File) : Prop := String.le (name a) (name b).

Global Instance name_le_dec : RelDecision name_le.
Proof. intros a b. unfold name_le. apply _. Defined.

(** [sorted(epubs_dir.glob("*.epub"))] on the files of a directory *)
Definition glob_epub (dir : list File) : list File :=
  filter (fun f => PyPath.is_epub_name (name f) = true) dir.

Definition sorted (files : list File) : list File :=
  merge_sort name_le files.

End Epub.

(** ** generate_catalog.py *)

Module GenerateCatalog.
Import PyStr.

Record MetaDict := {
  md_title : option string;
  md_author : option string;
  md_language : option string;
  md_description : option string;
}.

Definition extract_epub_metadata (EBOOKLIB_AVAILABLE : bool)
    (epub_path : Epub.File) : MetaDict :=
  let from_filename :=
    title (replace "_" " " (replace "-" " " (PyPath.stem (Epub.name epub_path)))) in
  if negb EBOOKLIB_AVAILABLE then
    {| md_title := Some from_filename; md_author := None;
       md_language := None; md_description := None |}
  else
    match Epub.read_epub epub_path with
    | Some book =>
        {| md_title := Epub.first_value (Epub.get_metadata book "DC" "title");
           md_author := Epub.first_value (Epub.get_metadata book "DC" "creator");
           md_language := Epub.first_value (Epub.get_metadata book "DC" "language");
           md_description :=
             Epub.first_value (Epub.get_metadata book "DC" "description") |}
    | None =>
        {| md_title := Some from_filename; md_author := None;
           md_language := None; md_description := None |}
    end.

Definition guess_genre (title author : string) (tags : list string) : string :=
  let title_lower := lower title in
  let author_lower := if String.eqb author "" then "" else lower author in
  if any_in ["mystery"; "detective"; "murder"; "crime"] title_lower then "Mystery"
  else if any_in ["fantasy"; "wizard"; "magic"; "dragon"] title_lower then "Fantasy"
  else if any_in ["romance"; "love"; "heart"] title_lower then "Romance"
  else if any_in ["horror"; "terror"; "vampire"; "zombie"] title_lower then "Horror"
  else if any_in ["science"; "space"; "robot"; "future"] title_lower
    then "Science Fiction"
  else if contains "children" (lower (join " " tags)) || contains "kid" title_lower
    then "Children's Literature"
  else if contains "dickens" author_lower || contains "austen" author_lower
    then "Classic Literature"
  else "Fiction".

Definition guess_age_rating (title genre : string) (tags : list string) : string :=
  let title_lower := lower title in
  let genre_lower := lower genre in
  let tags_lower := lower (join " " tags) in
  if any_in ["children"; "kid"; "little"; "pooh"; "curious george"] title_lower
    then "Children"
  else if contains "children" tags_lower || contains "picture book" tags_lower
    then "Children"
  else if any_in ["hardy boys"; "nancy drew"; "young"] title_lower then "Young Adult"
  else if contains "young adult" tags_lower || contains "ya" tags_lower
    then "Young Adult"
  else if bool_decide (genre_lower ∈ ["horror"; "gothic"]) then "Young Adult"
  else "Adult".

Record BookEntry := {
  id : string;
  title : string;
  author : string;
  age : string;
  genre : string;
  tags : list string;
  description : string;
  storageUrl : string;
  coverImageUrl : option string;
  fileSizeBytes : Z;
  isFeatured : bool;
}.

(** [covers_dir] is [None] when the directory is not given or does not
    exist, otherwise the files it holds. *)
Definition generate_book_entry (EBOOKLIB_AVAILABLE : bool)
    (epub_path : Epub.File) (firebase_path : string)
    (covers_dir : option (gmap string bytes)) : BookEntry :=
  let metadata := extract_epub_metadata EBOOKLIB_AVAILABLE epub_path in
  let stem := PyPath.stem (Epub.name epub_path) in
  let book_id := lower stem in
  let file_size := Epub.getsize epub_path in
  let tags := ["Classic"] in
  let title := or_else (md_title metadata) (PyStr.title (replace "-" " " stem)) in
  let author := or_else (md_author metadata) "Unknown" in
  let genre := guess_genre title author tags in
  let age := guess_age_rating title genre tags in
  let cover_image_url :=
    match covers_dir with
    | Some covers =>
        if bool_decide (is_Some (covers !! (book_id +:+ ".png")))
        then Some ("BookCovers/" +:+ book_id +:+ ".png")
        else None
    | None => None
    end in
  {| id := book_id; title := title; author := author; age := age;
     genre := genre; tags := tags;
     description :=
       or_else (md_description metadata)
         ("A " +:+ lower genre +:+ " book by " +:+ author +:+ ".");
     storageUrl := firebase_path +:+ "/" +:+ Epub.name epub_path;
     coverImageUrl := cover_image_url;
     fileSizeBytes := file_size;
     isFeatured := false |}.

Record Collection := {
  c_id : string;
  c_name : string;
  c_description : string;
  c_sortOrder : Z;
  c_coverImageUrl : option string;
  c_bookIds : list string;
}.

(** One iteration of a grouping loop:
    [if k not in d: d[k] = []] then [d[k].append(book["id"])]. *)
Definition group_step (key : BookEntry -> string)
    (d : gmap string (list string)) (book : BookEntry) : gmap string (list string) :=
  <[key book := default [] (d !! key book) ++ [id book]]> d.

Definition group_by (key : BookEntry -> string) (books : list BookEntry)
    : gmap string (list string) :=
  foldl (group_step key) ∅ books.

Definition age_order : list string := ["Children"; "Young Adult"; "Adult"].

Definition age_collection (sort_order : Z) (age : string)
    (book_ids : list string) : Collection :=
  {| c_id := replace " " "-" (lower age);
     c_name := age +:+ " Books";
     c_description := "Books suitable for " +:+ lower age +:+ " readers";
     c_sortOrder := sort_order;
     c_coverImageUrl := None;
     c_bookIds := book_ids |}.

Definition genre_collection (sort_order : Z) (genre : string)
    (book_ids : list string) : Collection :=
  {| c_id := replace "'" "" (replace " " "-" (lower genre));
     c_name := genre;
     c_description := genre +:+ " books from our collection";
     c_sortOrder := sort_order;
     c_coverImageUrl := None;
     c_bookIds := book_ids |}.

(** Body of the loop over [age_order]; the state is
    [(collections, sort_order)]. [ages[age]] is shared, not copied. *)
Definition age_step (ages : gmap string (list string))
    (st : list Collection * Z) (age : string) : list Collection * Z :=
  let '(collections, sort_order) := st in
  match ages !! age with
  | Some (i :: ids) =>
      (collections ++ [age_collection sort_order age (i :: ids)], sort_order + 1)
  | _ => st
  end.

Definition item_le (x y : string * list string) : Prop := String.le x.1 y.1.

Global Instance item_le_dec : RelDecision item_le.
Proof. intros x y. unfold item_le. apply _. Defined.

(** [sorted(genres.items())]; the keys of a dictionary are distinct, so the
    order is decided by the keys. *)
Definition sorted_items (d : gmap string (list string))
    : list (string * list string) :=
  merge_sort item_le (map_to_list d).

(** Body of the loop over the sorted genres. *)
Definition genre_step (st : list Collection * Z)
    (item : string * list string) : list Collection * Z :=
  let '(collections, sort_order) := st in
  let '(genre, book_ids) := item in
  if bool_decide (2 <= length book_ids)%nat then
    (collections ++ [genre_collection sort_order genre book_ids], sort_order + 1)
  else st.

Definition all_books (books : list BookEntry) : Collection :=
  {| c_id := "all";
     c_name := "All Books";
     c_description := "Complete library collection";
     c_sortOrder := 0;
     c_coverImageUrl := None;
     c_bookIds := id <$> books |}.

Definition create_collections (books : list BookEntry) : list Collection :=
  let genres := group_by genre books in
  let ages := group_by age books in
  let st0 := ([all_books books], 1) in
  let st1 := foldl (age_step ages) st0 age_order in
  let st2 := foldl genre_step st1 (sorted_items genres) in
  st2.1.

Record Catalog := {
  version : Z;
  lastUpdated : string;
  collections : list Collection;
  books : list BookEntry;
}.

(** [today] stands for [datetime.now().strftime("%Y-%m-%d")]. *)
Definition generate_catalog (EBOOKLIB_AVAILABLE : bool) (today : string)
    (epubs_dir : list Epub.File) (firebase_path : string)
    (covers_dir : option (gmap string bytes)) : option Catalog :=
  let epub_files := Epub.glob_epub epubs_dir in
  match epub_files with
  | [] => None
  | _ =>
      let books :=
        (fun epub_file =>
           generate_book_entry EBOOKLIB_AVAILABLE epub_file firebase_path covers_dir)
          <$> Epub.sorted epub_files in
      Some {| version := 1; lastUpdated := today;
              collections := create_collections books; books := books |}
  end.

Record Args := {
  args_epubs_dir : option (list Epub.File);
  args_firebase_path : string;
  args_covers_dir : option (gmap string bytes);
  args_pretty : bool;
}.

(** [main]: the exit status and the catalog saved to [args.output], if
    any. [args_epubs_dir] is [None] when the directory does not exist. *)
Definition main (EBOOKLIB_AVAILABLE : bool) (today : string) (args : Args)
    : Z * option Catalog :=
  match args_epubs_dir args with
  | None => (1, None)
  | Some epubs_dir =>
      match generate_catalog EBOOKLIB_AVAILABLE today epubs_dir
              (args_firebase_path args) (args_covers_dir args) with
      | None => (1, None)
      | Some catalog => (0, Some catalog)
      end
  end.

End GenerateCatalog.

(** ** The interpreter's string hash *)

(** [hash(s)] for a [str] of one-byte characters: SipHash-1-3 (the default
    of CPython 3.11 and later) over the characters, keyed by the first two
    words of the hash secret of the process. The secret is drawn when the
    interpreter starts: at random, or from [PYTHONHASHSEED]. *)
Module PyHash.

Definition wrap64 (x : Z) : Z := x mod 2 ^ 64.

Definition rotl (x b : Z) : Z :=
  wrap64 (Z.lor (Z.shiftl x b) (Z.shiftr x (64 - b))).

Definition State := (Z * Z * Z * Z)%type.

Definition sipround (v : State) : State :=
  let '(v0, v1, v2, v3) := v in
  let v0 := wrap64 (v0 + v1) in
  let v1 := Z.lxor (rotl v1 13) v0 in
  let v0 := rotl v0 32 in
  let v2 := wrap64 (v2 + v3) in
  let v3 := Z.lxor (rotl v3 16) v2 in
  let v0 := wrap64 (v0 + v3) in
  let v3 := Z.lxor (rotl v3 21) v0 in
  let v2 := wrap64 (v2 + v1) in
  let v1 := Z.lxor (rotl v1 17) v2 in
  let v2 := rotl v2 32 in
  (v0, v1, v2, v3).

(** Absorb one 64-bit word. *)
Definition compress (v : State) (m : Z) : State :=
  let '(v0, v1, v2, v3) := v in
  let '(v0, v1, v2, v3) := sipround (v0, v1, v2, Z.lxor v3 m) in
  (Z.lxor v0 m, v1, v2, v3).

(** Read the input byte by byte; [acc] gathers the current little-endian
    word and [cnt] counts its bytes. *)
Definition absorb (st : State * Z * Z) (b : Z) : State * Z * Z :=
  let '(v, acc, cnt) := st in
  let acc := Z.lor acc (Z.shiftl b (8 * cnt)) in
  if cnt =? 7 then (compress v acc, 0, 0) else (v, acc, cnt + 1).

Definition siphash13 (k0 k1 : Z) (src : list Z) : Z :=
  let v := (Z.lxor k0 0x736f6d6570736575, Z.lxor k1 0x646f72616e646f6d,
            Z.lxor k0 0x6c7967656e657261, Z.lxor k1 0x7465646279746573) in
  let '(v, t, _) := foldl absorb (v, 0, 0) src in
  let b := Z.lor (wrap64 (Z.shiftl (Z.of_nat (length src)) 56)) t in
  let '(v0, v1, v2, v3) := compress v b in
  let '(v0, v1, v2, v3) :=
    sipround (sipround (sipround (v0, v1, Z.lxor v2 0xff, v3))) in
  Z.lxor (Z.lxor v0 v1) (Z.lxor v2 v3).

Definition Secret := (Z * Z)%type.

Fixpoint code_units (s : string) : list Z :=
  match s with
  | EmptyString => []
  | String c s' => Z.of_N (N_of_ascii c) :: code_units s'
  end.

(** The result is a signed 64-bit integer; -1 is reserved. *)
Definition hash (secret : Secret) (s : string) : Z :=
  match s with
  | EmptyString => 0
  | _ =>
      let u := siphash13 secret.1 secret.2 (code_units s) in
      let x := if 2 ^ 63 <=? u then u - 2 ^ 64 else u in
      if x =? -1 then -2 else x
  end.

(** The secret derived from [PYTHONHASHSEED=seed]: all zero for seed 0,
    otherwise filled byte by byte from a linear congruential generator. *)
Fixpoint lcg_bytes (n : nat) (x : Z) : list Z :=
  match n with
  | O => []
  | S n' =>
      let x := (x * 214013 + 2531011) mod 2 ^ 32 in
      Z.land (Z.shiftr x 16) 255 :: lcg_bytes n' x
  end.

Definition le64 (bs : list Z) : Z :=
  foldr (fun b acc => b + 256 * acc) 0 bs.

Definition secret_of_seed (seed : Z) : Secret :=
  if seed =? 0 then (0, 0)
  else
    let bs := lcg_bytes 16 seed in
    (le64 (take 8 bs), le64 (drop 8 bs)).

End PyHash.

(** ** The imaging library *)

(** An image is modelled by how it was made: mode, size, fill colour and
    the drawing calls applied to it, in order. What depends on the host
    (font files, text metrics, the encoders, floating point) is the
    interface [Host]. *)
Module PIL.

Definition Color := list Z.

Inductive Font :=
| TrueType (path : string) (size : Z)
| DefaultFont.

Inductive DrawOp :=
| Line (xy0 xy1 : Z * Z) (fill : Color)
| Text (xy : Z * Z) (text : string) (fill : Color) (font : Font).

Record Image := {
  mode : string;
  size : Z * Z;
  color : Color;
  drawn : list DrawOp;
}.

(** [Image.new(mode, size, color)]; a negative size raises. *)
Definition new (mode : string) (size : Z * Z) (color : Color) : option Image :=
  if (0 <=? size.1) && (0 <=? size.2)
  then Some {| mode := mode; size := size; color := color; drawn := [] |}
  else None.

Definition draw (img : Image) (op : DrawOp) : Image :=
  {| mode := mode img; size := size img; color := color img;
     drawn := drawn img ++ [op] |}.

Class Host := {
  (** whether [ImageFont.truetype] can open the font file *)
  font_file : string -> bool;
  (** [draw.textbbox((0, 0), text, font=font)]; [None] when it raises *)
  textbbox : string -> Font -> option (Z * Z * Z * Z);
  (** what [img.save(output, format='PNG', optimize=...)] writes after
      the PNG signature: the chunks of the image *)
  png_chunks : Image -> bool -> bytes;
  (** [int(c0 + (c1 - c0) * (y / height))] in double precision *)
  lerp : Z -> Z -> Z -> Z -> Z;
  (** the body of [resize_and_optimize_cover]: decode, flatten onto
      white, thumbnail to the bounds, encode as PNG; [None] when any of
      these raises *)
  thumbnail_png : bytes -> Z -> Z -> option bytes;
}.

(** The eight bytes every PNG stream starts with. *)
Definition png_signature : bytes := [x89; x50; x4e; x47; x0d; x0a; x1a; x0a].

(** [img.save(output, format='PNG', optimize=...)]: the signature, then
    the chunks. *)
Definition save_png `{Host} (img : Image) (optimize : bool) : bytes :=
  png_signature ++ png_chunks img optimize.

Definition truetype `{Host} (path : string) (size : Z) : option Font :=
  if font_file path then Some (TrueType path size) else None.

End PIL.

(** A [for] loop whose body may raise: the first failure ends it. *)
Fixpoint foldlM {A B} (f : A -> B -> option A) (a : A) (l : list B) : option A :=
  match l with
  | [] => Some a
  | x :: l' => a' ← f a x; foldlM f a' l'
  end.

(** ** extract_covers.py *)

Module ExtractCovers.
Import PyStr.

(** Truthiness of a possibly-[None] byte string. *)
Definition truthy_bytes (x : option bytes) : bool :=
  match x with
  | Some (_ :: _) => true
  | _ => false
  end.

(** [for item in items: if test(item): cover_image = item.get_content(); break] *)
Definition first_content (test : Epub.Item -> bool) (items : list Epub.Item)
    (cover_image : option bytes) : option bytes :=
  match List.find test items with
  | Some item => Some (Epub.get_content item)
  | None => cover_image
  end.

Definition cover_names : list string :=
  ["cover.jpg"; "cover.jpeg"; "cover.png"; "cover.gif";
   "Cover.jpg"; "Cover.png"; "COVER.JPG"; "COVER.PNG"].

Definition is_cover_item (item : Epub.Item) : bool :=
  bool_decide (Epub.get_type item = Epub.ITEM_COVER).

Definition has_id (cover_id : string) (item : Epub.Item) : bool :=
  bool_decide (Epub.get_id item = cover_id).

Definition is_image (item : Epub.Item) : bool :=
  bool_decide (Epub.get_type item = Epub.ITEM_IMAGE).

Definition is_cover_named_image (item : Epub.Item) : bool :=
  is_image item &&
  (any_in cover_names (Epub.get_name item) ||
   contains "cover" (lower (Epub.get_name item))).

(** The body of the [try] block once the book is read. *)
Definition find_cover (book : Epub.Book) : option bytes :=
  let items := Epub.get_items book in
  let cover_image := first_content is_cover_item items None in
  if truthy_bytes cover_image then cover_image else
  let cover_image :=
    match Epub.get_metadata book "OPF" "cover" with
    | [] => cover_image
    | (_, attrs) :: _ =>
        let cover_id := default "" (attrs !! "content") in
        first_content (has_id cover_id) items cover_image
    end in
  if truthy_bytes cover_image then cover_image else
  let cover_image := first_content is_cover_named_image items cover_image in
  if truthy_bytes cover_image then cover_image else
  first_content is_image items cover_image.

Definition extract_cover_from_epub (epub_path : Epub.File) : option bytes :=
  match Epub.read_epub epub_path with
  | Some book => find_cover book
  | None => None
  end.

Section WithHost.
Context `{PIL.Host}.

Definition resize_and_optimize_cover (image_data : bytes) : bytes :=
  default image_data (PIL.thumbnail_png image_data 300 450).

Definition colors : list (PIL.Color * PIL.Color) :=
  [ ([139; 92; 246], [124; 58; 237]);
    ([236; 72; 153], [219; 39; 119]);
    ([16; 185; 129], [5; 150; 105]);
    ([245; 158; 11], [217; 119; 6]);
    ([59; 130; 246], [37; 99; 235]);
    ([239; 68; 68], [220; 38; 38]) ].

(** [colors[abs(hash(book_id)) % len(colors)]] *)
Definition choose_color_pair (secret : PyHash.Secret) (book_id : string)
    : PIL.Color * PIL.Color :=
  let i := Z.abs (PyHash.hash secret book_id) mod Z.of_nat (length colors) in
  default ([], []) (colors !! Z.to_nat i).

Definition channel (c : PIL.Color) (k : nat) : Z := default 0 (c !! k).

Definition gradient_line (color_pair : PIL.Color * PIL.Color)
    (width height : Z) (img : PIL.Image) (y : Z) : PIL.Image :=
  let mix k :=
    PIL.lerp (channel color_pair.1 k) (channel color_pair.2 k) y height in
  PIL.draw img (PIL.Line (0, y) (width, y) [mix 0%nat; mix 1%nat; mix 2%nat]).

Definition load_fonts : PIL.Font * PIL.Font :=
  match PIL.truetype "/System/Library/Fonts/Helvetica.ttc" 24,
        PIL.truetype "/System/Library/Fonts/Helvetica.ttc" 16 with
  | Some title_font, Some author_font => (title_font, author_font)
  | _, _ => (PIL.DefaultFont, PIL.DefaultFont)
  end.

Definition bbox_width (text : string) (font : PIL.Font) : option Z :=
  bbox ← PIL.textbbox text font;
  Some (bbox.1.2 - bbox.1.1.1).

(** Body of the word-wrap loop; the state is
    [(title_lines, current_line)]. *)
Definition wrap_step (title_font : PIL.Font) (width : Z)
    (st : list string * string) (word : string) : option (list string * string) :=
  let '(title_lines, current_line) := st in
  let test_line :=
    if String.eqb current_line "" then word
    else current_line +:+ " " +:+ word in
  w ← bbox_width test_line title_font;
  if w <=? width - 40 then Some (title_lines, test_line)
  else
    Some (if String.eqb current_line "" then title_lines
          else title_lines ++ [current_line],
          word).

(** Body of the loop drawing the title lines; the state is
    [(img, y_offset)]. *)
Definition title_step (title_font : PIL.Font) (width : Z)
    (st : PIL.Image * Z) (line : string) : option (PIL.Image * Z) :=
  let '(img, y_offset) := st in
  text_width ← bbox_width line title_font;
  let x := (width - text_width) / 2 in
  Some (PIL.draw img (PIL.Text (x, y_offset) line [255; 255; 255] title_font),
        y_offset + 35).

(** The [try] block of [create_placeholder_cover]; [None] when it
    raises. A title that is [None] has no [split]. *)
Definition draw_placeholder (secret : PyHash.Secret) (book_id : string)
    (title author : option string) (width height : Z) : option bytes :=
  img ← PIL.new "RGB" (width, height) [0; 0; 0];
  let color_pair := choose_color_pair secret book_id in
  let img := foldl (gradient_line color_pair width height) img
               (seqZ 0 height) in
  let '(title_font, author_font) := load_fonts in
  title ← title;
  let words := split title in
  '(title_lines, current_line) ←
    foldlM (wrap_step title_font width) ([], "") words;
  let title_lines :=
    if String.eqb current_line "" then title_lines
    else title_lines ++ [current_line] in
  let title_lines := take 3 title_lines in
  let y_offset := height / 2 - (Z.of_nat (length title_lines) * 30) / 2 in
  '(img, y_offset) ←
    foldlM (title_step title_font width) (img, y_offset) title_lines;
  img ←
    match author with
    | Some author =>
        if negb (String.eqb author "") && negb (String.eqb author "Unknown")
        then
          text_width ← bbox_width author author_font;
          let x := (width - text_width) / 2 in
          Some (PIL.draw img
                  (PIL.Text (x, y_offset + 20) author [255; 255; 255; 200]
                     author_font))
        else Some img
    | None => Some img
    end;
  Some (PIL.save_png img true).

(** The [except] block: a flat rectangle. *)
Definition flat_rectangle (width height : Z) : option bytes :=
  img ← PIL.new "RGB" (width, height) [100; 100; 150];
  Some (PIL.save_png img false).

Definition create_placeholder_cover (secret : PyHash.Secret) (book_id : string)
    (title author : option string) (width height : Z) : option bytes :=
  match draw_placeholder secret book_id title author width height with
  | Some data => Some data
  | None => flat_rectangle width height
  end.

(** The [try] block of the placeholder branch; [None] when it raises. *)
Definition make_placeholder (secret : PyHash.Secret) (epub_file : Epub.File)
    (book_id : string) : option bytes :=
  book ← Epub.read_epub epub_file;
  let title :=
    match Epub.get_metadata book "DC" "title" with
    | [] => Some (title (replace "-" " " (PyPath.stem (Epub.name epub_file))))
    | (value, _) :: _ => value
    end in
  let author :=
    match Epub.get_metadata book "DC" "creator" with
    | [] => Some "Unknown"
    | (value, _) :: _ => value
    end in
  create_placeholder_cover secret book_id title author 300 450.

Definition output_file (epub_file : Epub.File) : string :=
  lower (PyPath.stem (Epub.name epub_file)) +:+ ".png".

(** The state of the main loop: the files of the output directory,
    [extracted_count] and [placeholder_count]. *)
Definition LoopState := (gmap string bytes * Z * Z)%type.

(** Body of the loop over the EPUB files. *)
Definition process_epub (secret : PyHash.Secret) (create_placeholders : bool)
    (st : LoopState) (epub_file : Epub.File) : LoopState :=
  let '(output_dir, extracted_count, placeholder_count) := st in
  let book_id := lower (PyPath.stem (Epub.name epub_file)) in
  if bool_decide (is_Some (output_dir !! output_file epub_file)) then st
  else
    let cover_data := extract_cover_from_epub epub_file in
    if truthy_bytes cover_data then
      let optimized_cover := resize_and_optimize_cover (default [] cover_data) in
      (<[output_file epub_file := optimized_cover]> output_dir,
       extracted_count + 1, placeholder_count)
    else if create_placeholders then
      match make_placeholder secret epub_file book_id with
      | Some placeholder_data =>
          (<[output_file epub_file := placeholder_data]> output_dir,
           extracted_count, placeholder_count + 1)
      | None => st
      end
    else st.

(** [output_dir] holds the files of the output directory, none when it
    is yet to be created. *)
Definition extract_all_covers (secret : PyHash.Secret)
    (epubs_dir : list Epub.File) (output_dir : gmap string bytes)
    (create_placeholders : bool) : LoopState :=
  let epub_files := Epub.glob_epub epubs_dir in
  match epub_files with
  | [] => (output_dir, 0, 0)
  | _ =>
      foldl (process_epub secret create_placeholders) (output_dir, 0, 0)
        (Epub.sorted epub_files)
  end.

Record Args := {
  args_epubs_dir : option (list Epub.File);
  args_output_dir : gmap string bytes;
  args_no_placeholders : bool;
}.

(** [main]: the exit status and the files of the output directory
    afterwards. [args_epubs_dir] is [None] when the directory does not
    exist. *)
Definition main (secret : PyHash.Secret) (args : Args)
    : Z * gmap string bytes :=
  match args_epubs_dir args with
  | None => (1, args_output_dir args)
  | Some epubs_dir =>
      let st := extract_all_covers secret epubs_dir (args_output_dir args)
                  (negb (args_no_placeholders args)) in
      (0, st.1.1)
  end.

End WithHost.

End ExtractCovers.

(** ** The rules as the specification words them *)

Module Spec.
Import PyStr.

(** Genre rules on the lower-cased title, in priority order. *)
Definition title_rules : list (list string * string) :=
  [ (["mystery"; "detective"; "murder"; "crime"], "Mystery");
    (["fantasy"; "wizard"; "magic"; "dragon"], "Fantasy");
    (["romance"; "love"; "heart"], "Romance");
    (["horror"; "terror"; "vampire"; "zombie"], "Horror");
    (["science"; "space"; "robot"; "future"], "Science Fiction") ].

(** First matching rule wins: the title rules, then the children rule
    ('children' in the tag text or 'kid' in the title), then the classic
    authors, then the default. *)
Definition genre_by_rules (title author : string) (tags : list string) : string :=
  match List.find (fun rule => any_in rule.1 (lower title)) title_rules with
  | Some rule => rule.2
  | None =>
      if contains "children" (lower (join " " tags)) || contains "kid" (lower title)
      then "Children's Literature"
      else if contains "dickens" (lower author) || contains "austen" (lower author)
      then "Classic Literature"
      else "Fiction"
  end.

(** A slug: lower-cased, spaces to hyphens, apostrophes stripped. *)
Definition slug_char (c : ascii) : string :=
  if Ascii.eqb c " " then "-"
  else if Ascii.eqb c "'" then ""
  else String (lower_char c) "".

Fixpoint slugify (s : string) : string :=
  match s with
  | EmptyString => EmptyString
  | String c s' => slug_char c +:+ slugify s'
  end.

(** The title derived from a file name: hyphens and underscores replaced
    by spaces, title-cased. *)
Definition title_from_filename (name : string) : string :=
  title (replace "_" " " (replace "-" " " (PyPath.stem name))).

(** One method of the cover search: the content of the first item that
    passes [test], when it is not empty. *)
Definition method (test : Epub.Item -> bool) (book : Epub.Book) : option bytes :=
  match List.find test (Epub.get_items book) with
  | Some item =>
      match Epub.get_content item with
      | [] => None
      | content => Some content
      end
  | None => None
  end.

(** The four methods in their order. *)
Definition search_order (book : Epub.Book) : list (option bytes) :=
  [ method ExtractCovers.is_cover_item book;
    match Epub.get_metadata book "OPF" "cover" with
    | [] => None
    | (_, attrs) :: _ =>
        method (ExtractCovers.has_id (default "" (attrs !! "content"))) book
    end;
    method ExtractCovers.is_cover_named_image book;
    method ExtractCovers.is_image book ].

Fixpoint first_match (results : list (option bytes)) : option bytes :=
  match results with
  | [] => None
  | Some content :: _ => Some content
  | None :: rest => first_match rest
  end.

(** What the caller sees of a result: an empty byte string is no cover. *)
Definition cover_found (x : option bytes) : option bytes :=
  match x with
  | Some (b :: content) => Some (b :: content)
  | _ => None
  end.

(** The books of one genre (or age), as ids in catalog order. *)
Definition ids_where (key : GenerateCatalog.BookEntry -> string) (k : string)
    (books : list GenerateCatalog.BookEntry) : list string :=
  GenerateCatalog.id <$> filter (fun book => key book = k) books.

Definition is_genre_collection (G : string) (c : GenerateCatalog.Collection) : Prop :=
  GenerateCatalog.c_name c = G /\
  GenerateCatalog.c_description c = G +:+ " books from our collection".

Definition is_age_collection (age : string) (c : GenerateCatalog.Collection) : Prop :=
  GenerateCatalog.c_name c = age +:+ " Books" /\
  GenerateCatalog.c_description c =
    "Books suitable for " +:+ lower age +:+ " readers".

(** Whether the extractor's loop body writes a file for a book that it
    does not skip: a cover is found, or placeholders are enabled and the
    book can be read. *)
Definition writes (create_placeholders : bool) (f : Epub.File) : bool :=
  ExtractCovers.truthy_bytes (ExtractCovers.extract_cover_from_epub f) ||
  (create_placeholders && bool_decide (is_Some (Epub.read_epub f))).

(** The flat rectangle of the target size. *)
Definition rectangle (width height : Z) : PIL.Image :=
  {| PIL.mode := "RGB"; PIL.size := (width, height);
     PIL.color := [100; 100; 150]; PIL.drawn := [] |}.

End Spec.

(** ** Sample inputs *)

Module Sample.

(** A host without the Helvetica font file, with six-pixel-wide glyphs,
    exact arithmetic for the gradient, no image decoder, and an encoder
    that writes the PNG signature followed by the image size. *)
Definition z_byte (z : Z) : byte := default x00 (Byte.of_N (Z.to_N (z mod 256))).

Definition png_signature : bytes := PIL.png_signature.

#[local] Instance host : PIL.Host := {|
  PIL.font_file := fun _ => false;
  PIL.textbbox := fun text _ => Some (0, 0, 6 * Z.of_nat (String.length text), 11);
  PIL.png_chunks := fun img _ =>
    [z_byte (img.(PIL.size).1 / 256); z_byte img.(PIL.size).1;
     z_byte (img.(PIL.size).2 / 256); z_byte img.(PIL.size).2];
  PIL.lerp := fun c0 c1 y height => c0 + ((c1 - c0) * y) / height;
  PIL.thumbnail_png := fun _ _ _ => None;
|}.

Definition no_metadata : string -> string -> Epub.Metadata := fun _ _ => [].

(** An EPUB that parses, with neither title nor images. *)
Definition peter_pan : Epub.File :=
  {| Epub.name := "peter_pan.epub";
     Epub.read_epub := Some {| Epub.get_items := []; Epub.get_metadata := no_metadata |};
     Epub.getsize := 1024 |}.

(** A file that [read_epub] cannot parse. *)
Definition broken : Epub.File :=
  {| Epub.name := "broken.epub"; Epub.read_epub := None; Epub.getsize := 10 |}.


(** An EPUB whose title element is empty: its value is [None]. *)
Definition empty_title : Epub.File :=
  {| Epub.name := "untitled.epub";
     Epub.read_epub :=
       Some {| Epub.get_items := [];
               Epub.get_metadata := fun namespace name =>
                 if String.eqb namespace "DC" && String.eqb name "title"
                 then [(None, ∅)] else [] |};
     Epub.getsize := 512 |}.

Definition with_cover : Epub.File :=
  {| Epub.name := "Emma.epub";
     Epub.read_epub :=
       Some {| Epub.get_items :=
                 [ {| Epub.get_type := Epub.ITEM_DOCUMENT; Epub.get_id := "ch1";
                      Epub.get_name := "ch1.xhtml"; Epub.get_content := [x3c] |};
                   {| Epub.get_type := Epub.ITEM_IMAGE; Epub.get_id := "img1";
                      Epub.get_name := "images/Cover.jpg";
                      Epub.get_content := [xff; xd8] |} ];
               Epub.get_metadata := no_metadata |};
     Epub.getsize := 2048 |}.

Definition entry (id genre age : string) : GenerateCatalog.BookEntry :=
  {| GenerateCatalog.id := id; GenerateCatalog.title := id;
     GenerateCatalog.author := "Unknown"; GenerateCatalog.age := age;
     GenerateCatalog.genre := genre; GenerateCatalog.tags := ["Classic"];
     GenerateCatalog.description := ""; GenerateCatalog.storageUrl := "";
     GenerateCatalog.coverImageUrl := None; GenerateCatalog.fileSizeBytes := 0;
     GenerateCatalog.isFeatured := false |}.

Definition shelf : list GenerateCatalog.BookEntry :=
  [ entry "a" "Fantasy" "Adult"; entry "b" "Mystery" "Children";
    entry "c" "Fantasy" "Adult" ].

End Sample.

(** ** Notions used by the further properties *)

Module Derived.
Import PyStr.

(** The values [guess_genre] can return. *)
Definition genres : list string :=
  ["Mystery"; "Fantasy"; "Romance"; "Horror"; "Science Fiction";
   "Children's Literature"; "Classic Literature"; "Fiction"].

(** No upper-case ASCII letter occurs in [s]. *)
Fixpoint no_upper (s : string) : bool :=
  match s with
  | EmptyString => true
  | String c s' => negb (is_upper c) && no_upper s'
  end.

(** The character [c] occurs in [s]. *)
Fixpoint occurs (c : ascii) (s : string) : bool :=
  match s with
  | EmptyString => false
  | String a s' => Ascii.eqb a c || occurs c s'
  end.

(** The lines of the word-wrap loop once the pending line is appended:
    [if current_line: title_lines.append(current_line)]. *)
Definition flush (st : list string * string) : list string :=
  if String.eqb st.2 "" then st.1 else st.1 ++ [st.2].

Definition is_line (op : PIL.DrawOp) : bool :=
  match op with PIL.Line _ _ _ => true | PIL.Text _ _ _ _ => false end.

Definition is_text (op : PIL.DrawOp) : bool :=
  match op with PIL.Text _ _ _ _ => true | PIL.Line _ _ _ => false end.

(** The age of a catalog entry, read off its title and genre alone. *)
Definition age_of_title_and_genre (title genre : string) : string :=
  if any_in ["children"; "kid"; "little"; "pooh"; "curious george"] (lower title)
  then "Children"
  else if any_in ["hardy boys"; "nancy drew"; "young"] (lower title)
  then "Young Adult"
  else if String.eqb genre "Horror" then "Young Adult"
  else "Adult".

(** The state of a loop that appends collections is numbered when the
    sort orders so far are 0, 1, 2, ... and [sort_order] is the next one. *)
Definition numbered (st : list GenerateCatalog.Collection * Z) : Prop :=
  GenerateCatalog.c_sortOrder <$> st.1 = seqZ 0 (Z.of_nat (length st.1)) /\
  st.2 = Z.of_nat (length st.1).




(** Where a file written by the extractor comes from: the resized embedded
    cover of [f], or, with placeholders enabled and no cover found, the
    placeholder made for [f]. *)
Definition written_for `{PIL.Host} (secret : PyHash.Secret)
    (create_placeholders : bool) (f : Epub.File) (data : bytes) : Prop :=
  (exists cover, cover <> [] /\
     ExtractCovers.extract_cover_from_epub f = Some cover /\
     data = ExtractCovers.resize_and_optimize_cover cover) \/
  (create_placeholders = true /\
   ExtractCovers.truthy_bytes (ExtractCovers.extract_cover_from_epub f) = false /\
   ExtractCovers.make_placeholder secret f (lower (PyPath.stem (Epub.name f)))
   = Some data).

End Derived.

(** * Properties *)

(** ** Strings *)

Example lower_ex : PyStr.lower "The Railway Children" = "the railway children".
Proof. reflexivity. Qed.
Example title_ex : PyStr.title "they're peter_pan 2nd" = "They'Re Peter_Pan 2Nd".
Proof. reflexivity. Qed.
Example replace_ex : PyStr.replace "ab" "x" "aabab-ab" = "axx-x".
Proof. reflexivity. Qed.
Example replace_empty_ex : PyStr.replace "" "-" "abc" = "-a-b-c-".
Proof. reflexivity. Qed.
Example stem_ex : PyPath.stem "a.b.epub" = "a.b" /\ PyPath.stem ".epub" = ".epub".
Proof. split; reflexivity. Qed.
Example split_ex :
  PyStr.split "  the  great adventure " = ["the"; "great"; "adventure"].
Proof. reflexivity. Qed.

(** The hash model reproduces the interpreter: [PYTHONHASHSEED=0] and
    [PYTHONHASHSEED=1] give these values for [hash("book")]. *)
Example hash_seed0 :
  PyHash.hash (PyHash.secret_of_seed 0) "book" = 8153750121038708037.
Proof. vm_compute. reflexivity. Qed.
Example hash_seed1 :
  PyHash.hash (PyHash.secret_of_seed 1) "book" = 1216404516921091248.
Proof. vm_compute. reflexivity. Qed.
Example hash_seed2 :
  PyHash.hash (PyHash.secret_of_seed 2) "alice-in-wonderland" = -609449554020211319.
Proof. vm_compute. reflexivity. Qed.

Example shelf_collections :
  GenerateCatalog.c_name <$> GenerateCatalog.create_collections Sample.shelf
  = ["All Books"; "Children Books"; "Adult Books"; "Fantasy"].
Proof. vm_compute. reflexivity. Qed.

Section StringFacts.
Import PyStr.

Lemma lower_char_space c : lower_char c = " "%char -> c = " "%char.
Proof. destruct c as [[] [] [] [] [] [] [] []]; vm_compute; congruence. Qed.

Lemma lower_char_apostrophe c : lower_char c = "'"%char -> c = "'"%char.
Proof. destruct c as [[] [] [] [] [] [] [] []]; vm_compute; congruence. Qed.

(** Replacing a one-character pattern works character by character. *)
Lemma replace_char_cons o new c s :
  replace (String o "") new (String c s)
  = (if Ascii.eqb o c then new else String c "") +:+ replace (String o "") new s.
Proof.
  unfold replace. simpl.
  destruct (Ascii.ascii_dec o c) as [->|Hne].
  - rewrite Ascii.eqb_refl. destruct s; reflexivity.
  - apply Ascii.eqb_neq in Hne. rewrite Hne. reflexivity.
Qed.

Lemma replace_char_nil o new : replace (String o "") new "" = "".
Proof. reflexivity. Qed.

Lemma lower_author_guard author :
  (if String.eqb author "" then "" else lower author) = lower author.
Proof. destruct (String.eqb_spec author ""); subst; reflexivity. Qed.

(** The identifier expression of the genre collections is the slug. *)
Lemma slugify_replace s :
  replace "'" "" (replace " " "-" (lower s)) = Spec.slugify s.
Proof.
  induction s as [|c s IH]; [reflexivity|].
  cbn [lower Spec.slugify]. rewrite replace_char_cons. unfold Spec.slug_char.
  destruct (Ascii.eqb_spec c " ") as [->|Hsp].
  - change (lower_char " ") with " "%char. cbn [Ascii.eqb Bool.eqb].
    change ("-" +:+ ?x) with (String "-" x).
    rewrite replace_char_cons, IH. reflexivity.
  - destruct (Ascii.eqb_spec " " (lower_char c)) as [Heq|_].
    { symmetry in Heq. apply lower_char_space in Heq. contradiction. }
    change (String ?a "" +:+ ?x) with (String a x).
    rewrite replace_char_cons, IH.
    destruct (Ascii.eqb_spec c "'") as [->|Hap]; [reflexivity|].
    destruct (Ascii.eqb_spec "'" (lower_char c)) as [Heq|_]; [|reflexivity].
    symmetry in Heq. apply lower_char_apostrophe in Heq. contradiction.
Qed.

End StringFacts.

(** ** Genre classification *)

Section Genre.
Import PyStr GenerateCatalog.

Example great_adventure :
  guess_genre "The Great Adventure" "Unknown" ["Classic"] = "Fiction" /\
  guess_age_rating "The Great Adventure" "Fiction" ["Classic"] = "Adult".
Proof. split; reflexivity. Qed.

Example dragon_title :
  guess_genre "The Dragon of Love" "Jane Austen" ["Classic"] = "Fantasy".
Proof. reflexivity. Qed.

Lemma guess_genre_table title author tags :
  guess_genre title author tags = Spec.genre_by_rules title author tags.
Proof.
  unfold guess_genre, Spec.genre_by_rules, Spec.title_rules.
  rewrite lower_author_guard.
  generalize (lower title) (lower author) (lower (join " " tags)).
  intros t a g. cbn [List.find fst snd].
  repeat (destruct (any_in _ t); [reflexivity|]).
  reflexivity.
Qed.

(** C3, as the code has it: the genre is given by the rule table, first
    matching rule first; the children rule asks for 'children' in the tag
    text or 'kid' in the title, so that once no title rule matches either
    of the two gives Children's Literature. *)
Theorem guess_genre_first_match title author tags :
  guess_genre title author tags = Spec.genre_by_rules title author tags /\
  (List.find (fun rule => any_in rule.1 (lower title)) Spec.title_rules = None ->
   contains "children" (lower (join " " tags)) = true \/
     contains "kid" (lower title) = true ->
   guess_genre title author tags = "Children's Literature").
Proof.
  split; [apply guess_genre_table|].
  intros Hnone Hchild. rewrite guess_genre_table.
  unfold Spec.genre_by_rules. rewrite Hnone.
  destruct Hchild as [-> | ->]; [reflexivity|].
  rewrite orb_true_r. reflexivity.
Qed.

Lemma guess_genre_first_match_witness :
  guess_genre "Kidnapped" "R. L. Stevenson" ["Classic"] = "Children's Literature".
Proof.
  apply (proj2 (guess_genre_first_match "Kidnapped" "R. L. Stevenson" ["Classic"]));
    [reflexivity | right; reflexivity].
Defined.

(** C3 as stated fails: a title with 'children', no 'kid' and no keyword
    of an earlier rule falls through to the later rules. *)
Lemma children_title_is_fiction :
  contains "children" (lower "The Railway Children") = true /\
  List.find (fun rule => any_in rule.1 (lower "The Railway Children"))
    Spec.title_rules = None /\
  guess_genre "The Railway Children" "E. Nesbit" ["Classic"] = "Fiction".
Proof. repeat split; reflexivity. Qed.

End Genre.

(** ** Metadata fallbacks *)

Section Fallbacks.
Import PyStr GenerateCatalog.

Lemma or_else_some_nonempty (x : option string) (y : string) :
  or_else x y = match x with Some s => if String.eqb s "" then y else s | None => y end.
Proof. destruct x as [[|c s]|]; reflexivity. Qed.

(** A missing (or empty) author gives "Unknown". *)
Lemma missing_author_unknown avail f fb covers :
  truthy (md_author (extract_epub_metadata avail f)) = false ->
  author (generate_book_entry avail f fb covers) = "Unknown".
Proof.
  cbn [generate_book_entry author].
  destruct (md_author (extract_epub_metadata avail f)) as [[|c s]|];
    cbn; congruence.
Qed.

(** When parsing fails the metadata is the file-name title alone. *)
Lemma parse_failure_metadata f :
  Epub.read_epub f = None ->
  extract_epub_metadata true f
  = {| md_title := Some (Spec.title_from_filename (Epub.name f));
       md_author := None; md_language := None; md_description := None |}.
Proof. intros Hf. unfold extract_epub_metadata. cbn. rewrite Hf. reflexivity. Qed.

(** C5 at a file that parses but has no title: the entry keeps the
    underscore of the file name, where the title the claim describes (and
    the one [extract_epub_metadata] derives on its own fallback paths)
    has a space. *)
Theorem untitled_epub_keeps_underscore :
  Epub.first_value
    (Epub.get_metadata
       {| Epub.get_items := []; Epub.get_metadata := Sample.no_metadata |}
       "DC" "title") = None /\
  title (generate_book_entry true Sample.peter_pan "epubs" None) = "Peter_Pan" /\
  Spec.title_from_filename (Epub.name Sample.peter_pan) = "Peter Pan" /\
  md_title
    (extract_epub_metadata true
       {| Epub.name := "peter_pan.epub"; Epub.read_epub := None;
          Epub.getsize := 1024 |}) = Some "Peter Pan".
Proof. repeat split; reflexivity. Qed.

End Fallbacks.

(** ** Placeholder colours *)

Section Colours.
Import ExtractCovers.

Lemma choose_color_pair_in_palette secret book_id :
  choose_color_pair secret book_id ∈ colors.
Proof.
  unfold choose_color_pair.
  assert (Hlen : Z.of_nat (length colors) = 6) by reflexivity.
  rewrite Hlen.
  pose proof (Z.mod_pos_bound (Z.abs (PyHash.hash secret book_id)) 6 eq_refl) as Hb.
  destruct (colors !! Z.to_nat (Z.abs (PyHash.hash secret book_id) mod 6))
    as [p|] eqn:Hp.
  - apply list_elem_of_lookup. eauto.
  - apply lookup_ge_None in Hp. change (length colors) with 6%nat in Hp. lia.
Qed.

(** C6, as the code has it: the colour pair is always one of the six
    palette entries and depends on the book id only through the hash the
    process gives it; two executions that hash the id alike choose alike. *)
Theorem color_pair_keyed_by_hash secret1 secret2 book_id :
  PyHash.hash secret1 book_id = PyHash.hash secret2 book_id ->
  choose_color_pair secret1 book_id = choose_color_pair secret2 book_id /\
  choose_color_pair secret1 book_id ∈ colors.
Proof.
  intros Heq. split; [|apply choose_color_pair_in_palette].
  unfold choose_color_pair. rewrite Heq. reflexivity.
Qed.

Lemma color_pair_keyed_by_hash_witness :
  choose_color_pair (PyHash.secret_of_seed 0) "book"
    = choose_color_pair (PyHash.secret_of_seed 0) "book" /\
  choose_color_pair (PyHash.secret_of_seed 0) "book" ∈ colors.
Proof.
  apply (color_pair_keyed_by_hash (PyHash.secret_of_seed 0)
           (PyHash.secret_of_seed 0) "book").
  reflexivity.
Defined.

(** C6 as stated fails: two processes, started with hash seeds 0 and 1,
    pick different palette entries for the book id "book". *)
Lemma color_pair_differs_across_processes :
  choose_color_pair (PyHash.secret_of_seed 0) "book"
    = ([245; 158; 11], [217; 119; 6]) /\
  choose_color_pair (PyHash.secret_of_seed 1) "book"
    = ([139; 92; 246], [124; 58; 237]) /\
  choose_color_pair (PyHash.secret_of_seed 0) "book"
    <> choose_color_pair (PyHash.secret_of_seed 1) "book".
Proof. vm_compute. repeat split; congruence. Qed.

End Colours.

(** ** Cover search *)

Section CoverSearch.
Import ExtractCovers.

Example cover_by_name :
  extract_cover_from_epub Sample.with_cover = Some [xff; xd8].
Proof. reflexivity. Qed.


Lemma cover_found_some x content : Spec.cover_found x = Some content -> x = Some content.
Proof. destruct x as [[|b l]|]; cbn; congruence. Qed.

Lemma find_cover_search_order book :
  Spec.cover_found (find_cover book) = Spec.first_match (Spec.search_order book).
Proof.
  unfold find_cover, Spec.search_order, Spec.method, first_content.
  destruct (List.find is_cover_item (Epub.get_items book)) as [i1|];
    [destruct (Epub.get_content i1) as [|b1 c1]; [|reflexivity]|];
    cbn [truthy_bytes Spec.first_match];
    (destruct (Epub.get_metadata book "OPF" "cover") as [|[v attrs] rest];
     [|destruct (List.find (has_id (default "" (attrs !! "content")))
                  (Epub.get_items book)) as [i2|];
       [destruct (Epub.get_content i2) as [|b2 c2]; [|reflexivity]|]]);
    cbn [truthy_bytes Spec.first_match];
    (destruct (List.find is_cover_named_image (Epub.get_items book)) as [i3|];
     [destruct (Epub.get_content i3) as [|b3 c3]; [|reflexivity]|]);
    cbn [truthy_bytes Spec.first_match];
    (destruct (List.find is_image (Epub.get_items book)) as [i4|];
     [destruct (Epub.get_content i4) as [|b4 c4]|]);
    reflexivity.
Qed.

(** C7: the cover returned for an EPUB is the first match of the four
    methods in their order (explicit cover item, item named by the OPF
    cover metadata, image with a cover-like name, first image), where a
    method matches when the item it finds has content; when none does,
    or the file cannot be read, the caller gets no cover. *)
Theorem cover_search_first_match f :
  Spec.cover_found (extract_cover_from_epub f)
  = match Epub.read_epub f with
    | Some book => Spec.first_match (Spec.search_order book)
    | None => None
    end.
Proof.
  unfold extract_cover_from_epub.
  destruct (Epub.read_epub f) as [book|]; [apply find_cover_search_order|reflexivity].
Qed.

(** The first match is returned as it is. *)
Lemma cover_search_returns_match f book content :
  Epub.read_epub f = Some book ->
  Spec.first_match (Spec.search_order book) = Some content ->
  extract_cover_from_epub f = Some content.
Proof.
  intros Hf Hm. apply cover_found_some.
  unfold extract_cover_from_epub. rewrite Hf, find_cover_search_order. exact Hm.
Qed.

End CoverSearch.

(** ** Collections *)

Section Collections.
Import PyStr GenerateCatalog.

Implicit Types (books : list BookEntry) (d : gmap string (list string)).
Implicit Types (cs : list Collection) (c : Collection) (n : Z).

(** *** The grouping loops *)

Lemma ids_where_cons key k book books :
  Spec.ids_where key k (book :: books)
  = if decide (key book = k) then id book :: Spec.ids_where key k books
    else Spec.ids_where key k books.
Proof.
  unfold Spec.ids_where. destruct (decide (key book = k)) as [Heq|Hne].
  - rewrite filter_cons_True by exact Heq. reflexivity.
  - rewrite filter_cons_False by exact Hne. reflexivity.
Qed.

Lemma group_loop_lookup key books : forall d k,
  foldl (group_step key) d books !! k
  = match Spec.ids_where key k books with
    | [] => d !! k
    | ids => Some (default [] (d !! k) ++ ids)
    end.
Proof.
  induction books as [|book books IH]; intros d k; [reflexivity|].
  cbn [foldl]. rewrite IH, ids_where_cons. unfold group_step.
  destruct (decide (key book = k)) as [->|Hne].
  - rewrite lookup_insert_eq.
    destruct (Spec.ids_where key k books); cbn; [reflexivity|].
    rewrite <- app_assoc. reflexivity.
  - rewrite lookup_insert_ne by exact Hne. reflexivity.
Qed.

(** A bucket holds the ids of its books in catalog order, and exists only
    when it has a book. *)
Lemma group_by_lookup key books k :
  group_by key books !! k
  = match Spec.ids_where key k books with
    | [] => None
    | ids => Some ids
    end.
Proof.
  unfold group_by. rewrite group_loop_lookup, lookup_empty.
  destruct (Spec.ids_where key k books); reflexivity.
Qed.

Lemma group_by_some key books k ids :
  group_by key books !! k = Some ids ->
  ids = Spec.ids_where key k books /\ ids <> [].
Proof.
  rewrite group_by_lookup.
  destruct (Spec.ids_where key k books) as [|i l]; [discriminate|].
  intros [= <-]. split; [reflexivity|discriminate].
Qed.

Lemma elem_of_sorted_items d genre ids :
  (genre, ids) ∈ sorted_items d <-> d !! genre = Some ids.
Proof.
  unfold sorted_items. rewrite merge_sort_Permutation.
  apply elem_of_map_to_list.
Qed.

(** *** The loops that append collections *)

Lemma age_loop_elem ages (l : list string) : forall cs n c,
  c ∈ (foldl (age_step ages) (cs, n) l).1 ->
  c ∈ cs \/
  exists age ids k, age ∈ l /\ ages !! age = Some ids /\ ids <> [] /\
                    c = age_collection k age ids.
Proof.
  induction l as [|a l IH]; intros cs n c; cbn [foldl]; [by left|].
  unfold age_step at 2.
  destruct (ages !! a) as [[|i ids]|] eqn:Ha; intros Hc;
    apply IH in Hc as [Hc|(age & ids' & k & Hin & Hl & Hne & ->)];
    try (by left);
    try (right; exists age, ids', k; repeat split; try done; by apply elem_of_cons; right).
  apply elem_of_app in Hc as [Hc|Hc]; [by left|].
  apply list_elem_of_singleton in Hc as ->.
  right. exists a, (i :: ids), n. repeat split; try done. by apply elem_of_cons; left.
Qed.

Lemma age_loop_mono ages (l : list string) : forall cs n c,
  c ∈ cs -> c ∈ (foldl (age_step ages) (cs, n) l).1.
Proof.
  induction l as [|a l IH]; intros cs n c Hc; cbn [foldl]; [done|].
  unfold age_step at 2.
  destruct (ages !! a) as [[|i ids]|]; apply IH; try done.
  apply elem_of_app. by left.
Qed.

Lemma genre_loop_elem (items : list (string * list string)) : forall cs n c,
  c ∈ (foldl genre_step (cs, n) items).1 ->
  c ∈ cs \/
  exists genre ids k, (genre, ids) ∈ items /\ (2 <= length ids)%nat /\
                      c = genre_collection k genre ids.
Proof.
  induction items as [|[g ids] items IH]; intros cs n c; cbn [foldl]; [by left|].
  unfold genre_step at 2. case_bool_decide as Hlen; intros Hc;
    apply IH in Hc as [Hc|(genre & ids' & k & Hin & Hl & ->)];
    try (by left);
    try (right; exists genre, ids', k; repeat split; try done; by apply elem_of_cons; right).
  apply elem_of_app in Hc as [Hc|Hc]; [by left|].
  apply list_elem_of_singleton in Hc as ->.
  right. exists g, ids, n. repeat split; try done. by apply elem_of_cons; left.
Qed.

Lemma genre_loop_mono (items : list (string * list string)) : forall cs n c,
  c ∈ cs -> c ∈ (foldl genre_step (cs, n) items).1.
Proof.
  induction items as [|[g ids] items IH]; intros cs n c Hc; cbn [foldl]; [done|].
  unfold genre_step at 2. case_bool_decide; apply IH; try done.
  apply elem_of_app. by left.
Qed.

Lemma genre_loop_present (items : list (string * list string)) genre ids :
  (genre, ids) ∈ items -> (2 <= length ids)%nat ->
  forall cs n, exists k, genre_collection k genre ids ∈ (foldl genre_step (cs, n) items).1.
Proof.
  induction items as [|[g ids'] items IH]; intros Hin Hlen cs n; [by inversion Hin|].
  cbn [foldl]. apply elem_of_cons in Hin as [[= <- <-]|Hin].
  - unfold genre_step at 2. rewrite bool_decide_eq_true_2 by exact Hlen.
    exists n. apply genre_loop_mono, elem_of_app. right. by apply list_elem_of_singleton.
  - destruct (genre_step (cs, n) (g, ids')) as [cs' n']. by apply IH.
Qed.

(** *** What [create_collections] holds *)

Lemma create_collections_elem books c :
  c ∈ create_collections books ->
  c = all_books books \/
  (exists a k, a ∈ age_order /\ Spec.ids_where age a books <> [] /\
               c = age_collection k a (Spec.ids_where age a books)) \/
  (exists g k, (2 <= length (Spec.ids_where genre g books))%nat /\
               c = genre_collection k g (Spec.ids_where genre g books)).
Proof.
  unfold create_collections.
  destruct (foldl (age_step (group_by age books)) ([all_books books], 1) age_order)
    as [cs1 n1] eqn:Hst1.
  intros Hc. apply genre_loop_elem in Hc as [Hc|(g & ids & k & Hin & Hlen & ->)].
  - assert (Hcs : cs1 = (foldl (age_step (group_by age books))
                           ([all_books books], 1) age_order).1)
      by (rewrite Hst1; reflexivity).
    rewrite Hcs in Hc.
    apply age_loop_elem in Hc as [Hc|(a & ids & k & Hin & Hl & Hne & ->)].
    + left. by apply list_elem_of_singleton in Hc.
    + right; left. apply group_by_some in Hl as [-> Hne'].
      exists a, k. done.
  - right; right. apply elem_of_sorted_items, group_by_some in Hin as [-> _].
    exists g, k. done.
Qed.

Lemma all_books_first books : all_books books ∈ create_collections books.
Proof.
  unfold create_collections.
  destruct (foldl (age_step (group_by age books)) ([all_books books], 1) age_order)
    as [cs1 n1] eqn:Hst1.
  apply genre_loop_mono.
  assert (Hcs : cs1 = (foldl (age_step (group_by age books))
                         ([all_books books], 1) age_order).1)
    by (rewrite Hst1; reflexivity).
  rewrite Hcs. apply age_loop_mono. by apply list_elem_of_singleton.
Qed.

Lemma genre_collection_present books g :
  (2 <= length (Spec.ids_where genre g books))%nat ->
  exists k, genre_collection k g (Spec.ids_where genre g books)
            ∈ create_collections books.
Proof.
  intros Hlen. unfold create_collections.
  destruct (foldl (age_step (group_by age books)) ([all_books books], 1) age_order)
    as [cs1 n1].
  apply genre_loop_present; [|exact Hlen].
  apply elem_of_sorted_items. rewrite group_by_lookup.
  destruct (Spec.ids_where genre g books); [cbn in Hlen; lia|reflexivity].
Qed.

Lemma ids_where_length key k books :
  length (Spec.ids_where key k books)
  = length (filter (fun book => key book = k) books).
Proof. unfold Spec.ids_where. apply length_fmap. Qed.

Lemma age_collection_not_genre k a ids G :
  a ∈ age_order -> ~ Spec.is_genre_collection G (age_collection k a ids).
Proof.
  intros Ha [Hname Hdesc]. cbn in Hname, Hdesc. subst G.
  unfold age_order in Ha.
  repeat (apply elem_of_cons in Ha as [->|Ha]; [vm_compute in Hdesc; discriminate|]).
  by apply elem_of_nil in Ha.
Qed.

(** C8: a genre collection for [G] is in the list exactly when at least
    two books have genre [G]. *)
Theorem genre_collection_iff_two_books books G :
  (exists c, c ∈ create_collections books /\ Spec.is_genre_collection G c)
  <-> (2 <= length (filter (fun book => genre book = G) books))%nat.
Proof.
  rewrite <- ids_where_length. split.
  - intros (c & Hc & Hg).
    apply create_collections_elem in Hc
      as [->|[(a & k & Ha & _ & ->)|(g & k & Hlen & ->)]].
    + destruct Hg as [Hname Hdesc]. cbn in Hname, Hdesc. subst G.
      vm_compute in Hdesc. discriminate.
    + by apply age_collection_not_genre in Hg.
    + destruct Hg as [Hname _]. cbn in Hname. by subst g.
  - intros Hlen. destruct (genre_collection_present books G Hlen) as [k Hk].
    eexists. split; [exact Hk|]. split; reflexivity.
Qed.

(** C10: every collection lists the ids of its books in catalog order:
    all of them for 'All Books', those of the age for an age collection,
    those of the genre for a genre collection. *)
Theorem collection_book_ids_in_order books :
  Forall (fun c =>
    (c = all_books books /\ c_bookIds c = id <$> books) \/
    (exists a, a ∈ age_order /\ Spec.is_age_collection a c /\
       c_bookIds c = id <$> filter (fun book => age book = a) books) \/
    (exists g, Spec.is_genre_collection g c /\
       c_bookIds c = id <$> filter (fun book => genre book = g) books))
    (create_collections books).
Proof.
  apply Forall_forall. intros c Hc.
  apply create_collections_elem in Hc
    as [->|[(a & k & Ha & _ & ->)|(g & k & _ & ->)]].
  - left. done.
  - right; left. exists a. done.
  - right; right. exists g. done.
Qed.

(** The same on a generated catalog, whose collections are made from its
    own book list. *)
Lemma catalog_collections_of_books avail today dir fb covers catalog :
  generate_catalog avail today dir fb covers = Some catalog ->
  collections catalog = create_collections (books catalog) /\
  id <$> books catalog
    = (fun f => lower (PyPath.stem (Epub.name f))) <$> Epub.sorted (Epub.glob_epub dir).
Proof.
  unfold generate_catalog. destruct (Epub.glob_epub dir) as [|f files]; [done|].
  intros [= <-]. cbn [collections books]. split; [reflexivity|].
  rewrite <- list_fmap_compose. reflexivity.
Qed.

(** C4, as the code has it: a genre collection's id is the slug of its
    name; an age collection's id is the slug of the age alone, its name
    being the age followed by " Books"; the id of 'All Books' is "all". *)
Theorem collection_ids books :
  Forall (fun c =>
    (c_name c = "All Books" /\ c_id c = "all") \/
    (exists a, a ∈ age_order /\ c_name c = a +:+ " Books" /\
               c_id c = Spec.slugify a) \/
    (exists g, Spec.is_genre_collection g c /\ c_id c = Spec.slugify (c_name c)))
    (create_collections books).
Proof.
  apply Forall_forall. intros c Hc.
  apply create_collections_elem in Hc
    as [->|[(a & k & Ha & _ & ->)|(g & k & _ & ->)]].
  - left. done.
  - right; left. exists a. repeat split; try done.
    cbn [c_id age_collection]. unfold age_order in Ha.
    repeat (apply elem_of_cons in Ha as [->|Ha]; [reflexivity|]).
    by apply elem_of_nil in Ha.
  - right; right. exists g. split; [done|]. apply slugify_replace.
Qed.

(** C4 as stated fails on 'All Books' (and on the age collections): its
    id is "all" where the slug of its name is "all-books". *)
Lemma all_books_id_not_slug :
  all_books [] ∈ create_collections [] /\
  c_name (all_books []) = "All Books" /\
  c_id (all_books []) = "all" /\
  Spec.slugify (c_name (all_books [])) = "all-books" /\
  c_id (all_books []) <> Spec.slugify (c_name (all_books [])).
Proof.
  split; [apply all_books_first|]. repeat split; try reflexivity.
  vm_compute. discriminate.
Qed.

Example children_books_id :
  c_id (age_collection 1 "Young Adult" ["b"]) = "young-adult" /\
  Spec.slugify (c_name (age_collection 1 "Young Adult" ["b"])) = "young-adult-books".
Proof. split; reflexivity. Qed.

End Collections.

(** ** The extractor's main loop *)

Section Extractor.
Import PyStr ExtractCovers.
Context `{PIL.Host}.

Implicit Types (st : LoopState) (f : Epub.File) (files : list Epub.File).
Implicit Types (output_dir : gmap string bytes) (data : bytes).

(** *** Skipping *)

Lemma process_epub_skip secret cp st f :
  is_Some (st.1.1 !! output_file f) -> process_epub secret cp st f = st.
Proof.
  destruct st as [[output_dir e] p]. cbn [fst]. intros Hex.
  unfold process_epub. rewrite bool_decide_eq_true_2 by exact Hex. reflexivity.
Qed.

Lemma process_epub_preserves secret cp st f name data :
  st.1.1 !! name = Some data ->
  (process_epub secret cp st f).1.1 !! name = Some data.
Proof.
  destruct st as [[output_dir e] p]. cbn [fst]. intros Hname.
  unfold process_epub. case_bool_decide as Hex; [exact Hname|].
  assert (Hne : output_file f <> name).
  { intros Heq. apply Hex. rewrite Heq. eauto. }
  destruct (truthy_bytes (extract_cover_from_epub f)); cbn [fst].
  { by rewrite lookup_insert_ne. }
  destruct cp; [|exact Hname].
  destruct (make_placeholder secret f _); cbn [fst]; [|exact Hname].
  by rewrite lookup_insert_ne.
Qed.

Lemma loop_preserves secret cp files : forall st name data,
  st.1.1 !! name = Some data ->
  (foldl (process_epub secret cp) st files).1.1 !! name = Some data.
Proof.
  induction files as [|f files IH]; intros st name data Hname; [exact Hname|].
  cbn [foldl]. by apply IH, process_epub_preserves.
Qed.

Lemma extract_all_covers_preserves secret dir output_dir cp name data :
  output_dir !! name = Some data ->
  (extract_all_covers secret dir output_dir cp).1.1 !! name = Some data.
Proof.
  intros Hname. unfold extract_all_covers.
  destruct (Epub.glob_epub dir) as [|f files]; [exact Hname|].
  by apply loop_preserves.
Qed.

(** C9: a file already in the output directory is there unchanged after a
    run, the loop body leaves the whole state alone for a book whose
    output file exists, and a second run over the same inputs keeps every
    file the first one left. *)
Theorem existing_covers_untouched secret secret' dir output_dir cp cp' name data :
  output_dir !! name = Some data ->
  let after := (extract_all_covers secret dir output_dir cp).1.1 in
  after !! name = Some data /\
  (forall st f, is_Some (st.1.1 !! output_file f) -> process_epub secret cp st f = st) /\
  (forall name' data', after !! name' = Some data' ->
     (extract_all_covers secret' dir after cp').1.1 !! name' = Some data').
Proof.
  intros Hname after. split; [by apply extract_all_covers_preserves|].
  split; [intros st f; apply process_epub_skip|].
  intros name' data'. apply extract_all_covers_preserves.
Qed.

(** *** Placeholders *)

Lemma gradient_size pair width height (ys : list Z) : forall img,
  PIL.size (foldl (gradient_line pair width height) img ys) = PIL.size img.
Proof.
  induction ys as [|y ys IH]; intros img; [reflexivity|].
  cbn [foldl]. rewrite IH. reflexivity.
Qed.

Lemma title_loop_size font width (lines : list string) :
  forall s s' : PIL.Image * Z,
  foldlM (title_step font width) s lines = Some s' ->
  PIL.size s'.1 = PIL.size s.1.
Proof.
  induction lines as [|line lines IH]; intros s s'; cbn [foldlM].
  - by intros [= <-].
  - destruct s as [img y]. unfold title_step at 2.
    destruct (bbox_width line font) as [w|]; [|discriminate].
    cbn [mbind option_bind]. intros Hrest. apply IH in Hrest. exact Hrest.
Qed.

Lemma draw_placeholder_size secret book_id title author width height data :
  draw_placeholder secret book_id title author width height = Some data ->
  exists img, PIL.size img = (width, height) /\ data = PIL.save_png img true.
Proof.
  unfold draw_placeholder, PIL.new. cbn [fst snd].
  destruct ((0 <=? width) && (0 <=? height)); [|discriminate].
  cbn [mbind option_bind].
  destruct load_fonts as [title_font author_font].
  destruct title as [title|]; [|discriminate]. cbn [mbind option_bind].
  destruct (foldlM (wrap_step title_font width) ([], "") (split title))
    as [[title_lines current_line]|]; [|discriminate].
  cbn [mbind option_bind].
  match goal with
  | |- context [foldlM (title_step title_font width) (?img0, ?y0) ?ls] =>
      destruct (foldlM (title_step title_font width) (img0, y0) ls)
        as [[img y_offset]|] eqn:Hloop; [|discriminate];
      apply title_loop_size in Hloop; cbn [fst] in Hloop;
      rewrite gradient_size in Hloop; cbn [PIL.size] in Hloop
  end.
  cbn [mbind option_bind].
  destruct author as [author|].
  - destruct (negb (String.eqb author "") && negb (String.eqb author "Unknown")).
    + destruct (bbox_width author author_font) as [w|]; [|discriminate].
      cbn [mbind option_bind]. intros [= <-]. eexists. split; [|reflexivity].
      exact Hloop.
    + cbn [mbind option_bind]. intros [= <-]. eexists. split; [|reflexivity].
      exact Hloop.
  - cbn [mbind option_bind]. intros [= <-]. eexists. split; [|reflexivity].
    exact Hloop.
Qed.

Lemma flat_rectangle_ok width height :
  0 <= width -> 0 <= height ->
  flat_rectangle width height = Some (PIL.save_png (Spec.rectangle width height) false).
Proof.
  intros Hw Hh. unfold flat_rectangle, PIL.new. cbn [fst snd].
  destruct (Z.leb_spec 0 width); [|lia]. destruct (Z.leb_spec 0 height); [|lia].
  reflexivity.
Qed.

Lemma create_placeholder_cover_png secret book_id title author width height :
  0 <= width -> 0 <= height ->
  exists img optimize,
    PIL.size img = (width, height) /\
    create_placeholder_cover secret book_id title author width height
    = Some (PIL.save_png img optimize).
Proof.
  intros Hw Hh. unfold create_placeholder_cover.
  destruct (draw_placeholder secret book_id title author width height)
    as [data|] eqn:Hdraw.
  - apply draw_placeholder_size in Hdraw as (img & Hsize & ->). eauto.
  - exists (Spec.rectangle width height), false. split; [reflexivity|].
    by apply flat_rectangle_ok.
Qed.

Lemma make_placeholder_png secret f book :
  Epub.read_epub f = Some book ->
  exists img optimize,
    PIL.size img = (300, 450) /\
    make_placeholder secret f (lower (PyPath.stem (Epub.name f)))
    = Some (PIL.save_png img optimize).
Proof.
  intros Hf. unfold make_placeholder. rewrite Hf. cbn [mbind option_bind].
  apply create_placeholder_cover_png; lia.
Qed.

(** *** What one iteration writes *)

Lemma process_epub_writes secret cp st f :
  st.1.1 !! output_file f = None -> Spec.writes cp f = true ->
  exists data,
    (process_epub secret cp st f).1.1 = <[output_file f := data]> st.1.1 /\
    (ExtractCovers.truthy_bytes (extract_cover_from_epub f) = false ->
     exists img optimize,
       PIL.size img = (300, 450) /\ data = PIL.save_png img optimize).
Proof.
  destruct st as [[output_dir e] p]. cbn [fst]. intros Hnone Hw.
  unfold process_epub. rewrite bool_decide_eq_false_2
    by (rewrite Hnone; intros [? [=]]).
  unfold Spec.writes in Hw.
  destruct (truthy_bytes (extract_cover_from_epub f)); cbn [fst].
  { eexists. split; [reflexivity|discriminate]. }
  cbn [orb] in Hw. apply andb_true_iff in Hw as [-> Hread].
  apply bool_decide_eq_true in Hread as [book Hbook].
  destruct (make_placeholder_png secret f book Hbook) as (img & o & Hsize & ->).
  cbn [fst]. eexists. split; [reflexivity|]. intros _. eauto.
Qed.

Lemma process_epub_silent secret cp st f :
  st.1.1 !! output_file f = None -> Spec.writes cp f = false ->
  process_epub secret cp st f = st.
Proof.
  destruct st as [[output_dir e] p]. cbn [fst]. intros Hnone Hw.
  unfold process_epub. rewrite bool_decide_eq_false_2
    by (rewrite Hnone; intros [? [=]]).
  unfold Spec.writes in Hw. apply orb_false_iff in Hw as [-> Hw].
  destruct cp; [|reflexivity]. cbn [andb] in Hw.
  apply bool_decide_eq_false in Hw.
  unfold make_placeholder.
  destruct (Epub.read_epub f) as [book|]; [exfalso; apply Hw; eauto|].
  reflexivity.
Qed.

Lemma process_epub_output_exists secret cp st f :
  Spec.writes cp f = true ->
  is_Some ((process_epub secret cp st f).1.1 !! output_file f).
Proof.
  intros Hw. destruct (st.1.1 !! output_file f) as [data|] eqn:Hl.
  - rewrite process_epub_skip by (rewrite Hl; eauto). rewrite Hl. eauto.
  - destruct (process_epub_writes secret cp st f Hl Hw) as (data & -> & _).
    rewrite lookup_insert_eq. eauto.
Qed.

Lemma loop_output_exists secret cp files f : forall st,
  f ∈ files -> Spec.writes cp f = true ->
  is_Some ((foldl (process_epub secret cp) st files).1.1 !! output_file f).
Proof.
  induction files as [|g files IH]; intros st Hin Hw; [by inversion Hin|].
  cbn [foldl]. apply elem_of_cons in Hin as [<-|Hin]; [|by apply IH].
  destruct (process_epub_output_exists secret cp st f Hw) as [data Hdata].
  exists data. by apply loop_preserves.
Qed.

Lemma extract_all_covers_output_exists secret dir output_dir cp f :
  f ∈ Epub.glob_epub dir -> Spec.writes cp f = true ->
  is_Some ((extract_all_covers secret dir output_dir cp).1.1 !! output_file f).
Proof.
  intros Hin Hw. unfold extract_all_covers.
  destruct (Epub.glob_epub dir) as [|g files] eqn:Hglob; [by inversion Hin|].
  apply loop_output_exists; [|exact Hw].
  unfold Epub.sorted. by rewrite merge_sort_Permutation.
Qed.

(** *** Running twice *)

Lemma loop_noop secret cp files : forall output_dir e p,
  (forall f, f ∈ files -> Spec.writes cp f = true ->
             is_Some (output_dir !! output_file f)) ->
  foldl (process_epub secret cp) (output_dir, e, p) files = (output_dir, e, p).
Proof.
  induction files as [|f files IH]; intros output_dir e p Hall; [reflexivity|].
  cbn [foldl].
  assert (Hstep : process_epub secret cp (output_dir, e, p) f = (output_dir, e, p)).
  { destruct (output_dir !! output_file f) as [data|] eqn:Hl.
    - apply process_epub_skip. cbn [fst]. rewrite Hl. eauto.
    - destruct (Spec.writes cp f) eqn:Hw.
      + destruct (Hall f) as [data Hdata]; [by left|exact Hw|congruence].
      + by apply process_epub_silent. }
  rewrite Hstep. apply IH. intros g Hg. apply Hall. by right.
Qed.

(** A second run with the same options writes nothing, whatever the hash
    secret of the second process. *)
Lemma second_run_writes_nothing secret secret' dir output_dir cp :
  (extract_all_covers secret' dir
     (extract_all_covers secret dir output_dir cp).1.1 cp).1.1
  = (extract_all_covers secret dir output_dir cp).1.1.
Proof.
  set (after := (extract_all_covers secret dir output_dir cp).1.1).
  assert (Hafter : forall f, f ∈ Epub.glob_epub dir -> Spec.writes cp f = true ->
                             is_Some (after !! output_file f))
    by (intros f; apply extract_all_covers_output_exists).
  unfold extract_all_covers at 1.
  destruct (Epub.glob_epub dir) as [|g files] eqn:Hglob; [reflexivity|].
  rewrite loop_noop; [reflexivity|].
  intros f Hf. apply Hafter. unfold Epub.sorted in Hf.
  by rewrite merge_sort_Permutation in Hf.
Qed.

(** *** Exit status *)

Lemma extract_main_exit_status secret args :
  (main secret args).1 = match args_epubs_dir args with None => 1 | Some _ => 0 end.
Proof. unfold main. destruct (args_epubs_dir args); reflexivity. Qed.

(** C1 at an input directory that exists and holds no EPUB: the cover
    extractor leaves the output directory as it is and exits with 0,
    where the catalog generator exits with 1. *)
Theorem extract_main_no_epubs_exit_0 secret output_dir no_placeholders today :
  main secret {| args_epubs_dir := Some [];
                 args_output_dir := output_dir;
                 args_no_placeholders := no_placeholders |} = (0, output_dir) /\
  GenerateCatalog.main true today
    {| GenerateCatalog.args_epubs_dir := Some [];
       GenerateCatalog.args_firebase_path := "epubs";
       GenerateCatalog.args_covers_dir := None;
       GenerateCatalog.args_pretty := false |} = (1, None).
Proof. split; reflexivity. Qed.

End Extractor.

Lemma catalog_main_exit_status avail today args :
  (GenerateCatalog.main avail today args).1
  = match GenerateCatalog.args_epubs_dir args with
    | None => 1
    | Some dir => match Epub.glob_epub dir with [] => 1 | _ => 0 end
    end.
Proof.
  unfold GenerateCatalog.main, GenerateCatalog.generate_catalog.
  destruct (GenerateCatalog.args_epubs_dir args) as [dir|]; [|reflexivity].
  destruct (Epub.glob_epub dir); reflexivity.
Qed.

(** ** The extractor on the sample inputs *)

Section ExtractorSamples.
Import ExtractCovers.

(** A readable book without images gets a placeholder of 300x450. *)
Example peter_pan_placeholder :
  (@extract_all_covers Sample.host (0, 0) [Sample.peter_pan] ∅ true).1.1
    !! "peter_pan.png"
  = Some (Sample.png_signature ++ [x01; x2c; x01; xc2]).
Proof. vm_compute. reflexivity. Qed.

(** A title that is [None] makes the drawing fail; the rectangle is used. *)
Example empty_title_rectangle :
  @draw_placeholder Sample.host (0, 0) "untitled" None (Some "Unknown") 300 450 = None /\
  @make_placeholder Sample.host (0, 0) Sample.empty_title "untitled"
  = Some (@PIL.save_png Sample.host (Spec.rectangle 300 450) false).
Proof. split; vm_compute; reflexivity. Qed.

Lemma existing_covers_untouched_witness :
  (@extract_all_covers Sample.host (0, 0) [Sample.peter_pan]
     {[ "peter_pan.png" := [x00] ]} true).1.1 !! "peter_pan.png" = Some [x00].
Proof.
  pose proof (@existing_covers_untouched Sample.host (0, 0) (1, 0)
                [Sample.peter_pan] {[ "peter_pan.png" := [x00] ]}
                true true "peter_pan.png" [x00]) as W.
  cbv zeta in W.
  assert (Hin : ({[ "peter_pan.png" := [x00] ]} : gmap string bytes)
                  !! "peter_pan.png" = Some [x00]) by (vm_compute; reflexivity).
  exact (proj1 (W Hin)).
Defined.

End ExtractorSamples.

(** * Further properties *)

(** ** File names and book ids *)

Section FileNames.
Import PyStr GenerateCatalog.

Lemma append_cons c (a b : string) : String c a +:+ b = String c (a +:+ b).
Proof. reflexivity. Qed.

Lemma append_length (a b : string) :
  String.length (a +:+ b) = (String.length a + String.length b)%nat.
Proof. induction a as [|c a IH]; [reflexivity|]. rewrite append_cons. cbn. by rewrite IH. Qed.

Lemma rfind_append c (a b : string) : forall i,
  rfind c (a +:+ b) i
  = match rfind c b (i + String.length a) with
    | Some j => Some j
    | None => rfind c a i
    end.
Proof.
  induction a as [|x a IH]; intros i.
  - change ("" +:+ b) with b. cbn. rewrite Nat.add_0_r.
    destruct (rfind c b i); reflexivity.
  - rewrite append_cons. cbn [rfind String.length]. rewrite IH.
    replace (S i + String.length a)%nat with (i + S (String.length a))%nat by lia.
    destruct (rfind c b (i + S (String.length a))); reflexivity.
Qed.

Lemma substring_prefix (a b : string) : String.substring 0 (String.length a) (a +:+ b) = a.
Proof.
  induction a as [|c a IH].
  - change ("" +:+ b) with b. destruct b; reflexivity.
  - rewrite append_cons. cbn. by rewrite IH.
Qed.

Lemma substring_suffix (a b : string) m :
  String.substring (String.length a) m (a +:+ b) = String.substring 0 m b.
Proof. induction a as [|c a IH]; [reflexivity|]. rewrite append_cons. cbn. exact IH. Qed.

Lemma stem_epub pre : pre <> "" -> PyPath.stem (pre +:+ ".epub") = pre.
Proof.
  intros Hne. unfold PyPath.stem. rewrite rfind_append.
  assert (Hdot : rfind "." ".epub" (0 + String.length pre)
                 = Some (String.length pre)) by reflexivity.
  rewrite Hdot, append_length.
  assert (Hpos : (0 < String.length pre)%nat) by (destruct pre; [done|cbn; lia]).
  assert (Hcond : (Nat.ltb 0 (String.length pre)
                   && Nat.ltb (String.length pre)
                        (String.length pre + String.length ".epub" - 1))%nat = true).
  { apply andb_true_iff. split; apply Nat.ltb_lt; cbn [String.length]; lia. }
  rewrite Hcond. apply substring_prefix.
Qed.

Lemma is_epub_name_epub pre : PyPath.is_epub_name (pre +:+ ".epub") = true.
Proof.
  unfold PyPath.is_epub_name. rewrite append_length. cbn [String.length].
  rewrite (proj2 (Nat.leb_le _ _)) by lia.
  replace (String.length pre + 5 - 5)%nat with (String.length pre) by lia.
  rewrite substring_suffix. reflexivity.
Qed.

Lemma is_upper_lower_char c : is_upper (lower_char c) = false.
Proof. destruct c as [[] [] [] [] [] [] [] []]; vm_compute; reflexivity. Qed.

Lemma no_upper_lower s : Derived.no_upper (lower s) = true.
Proof.
  induction s as [|c s IH]; [reflexivity|].
  cbn [lower Derived.no_upper]. by rewrite is_upper_lower_char, IH.
Qed.

(** X1: for a file named [pre.epub] with [pre] not empty, the glob keeps
    the file, the entry's id is [pre] lower-cased and holds no upper-case
    letter, the storage path is the prefix, a slash and the whole file
    name, and the cover the extractor writes is named after the same id. *)
Theorem entry_id_of_epub_name avail f fb covers pre :
  pre <> "" -> Epub.name f = pre +:+ ".epub" ->
  PyPath.is_epub_name (Epub.name f) = true /\
  id (generate_book_entry avail f fb covers) = lower pre /\
  Derived.no_upper (id (generate_book_entry avail f fb covers)) = true /\
  storageUrl (generate_book_entry avail f fb covers) = fb +:+ "/" +:+ pre +:+ ".epub" /\
  ExtractCovers.output_file f = lower pre +:+ ".png".
Proof.
  intros Hne Hname. cbn [generate_book_entry id storageUrl].
  unfold ExtractCovers.output_file. rewrite Hname, stem_epub by exact Hne.
  repeat split; [apply is_epub_name_epub|apply no_upper_lower].
Qed.

Lemma entry_id_of_epub_name_witness :
  id (generate_book_entry true Sample.with_cover "epubs" None) = "emma".
Proof.
  refine (proj1 (proj2 (entry_id_of_epub_name true Sample.with_cover "epubs" None
                          "Emma" _ _))); [discriminate|reflexivity].
Defined.

End FileNames.

(** ** Entries of unreadable and untitled books *)

Section EntryFallbacks.
Import PyStr GenerateCatalog.

Lemma title_go_length b s : String.length (title_go b s) = String.length s.
Proof.
  revert b. induction s as [|c s IH]; intros b; [reflexivity|].
  cbn [title_go]. destruct (is_lower c); [|destruct (is_upper c)]; cbn; by rewrite IH.
Qed.

Lemma replace_char_length o n s :
  String.length (replace (String o "") (String n "") s) = String.length s.
Proof.
  induction s as [|c s IH]; [reflexivity|].
  rewrite replace_char_cons, append_length, IH.
  destruct (Ascii.eqb o c); reflexivity.
Qed.

Lemma length_zero_empty s : String.length s = 0%nat -> s = "".
Proof. destruct s; [reflexivity|discriminate]. Qed.

Lemma title_from_filename_empty name :
  Spec.title_from_filename name = "" -> PyStr.title (replace "-" " " (PyPath.stem name)) = "".
Proof.
  unfold Spec.title_from_filename, PyStr.title. intros Hempty.
  apply (f_equal String.length) in Hempty.
  rewrite title_go_length, !replace_char_length in Hempty.
  apply length_zero_empty in Hempty. rewrite Hempty. reflexivity.
Qed.

Lemma or_else_title name :
  or_else (Some (Spec.title_from_filename name))
    (PyStr.title (replace "-" " " (PyPath.stem name)))
  = Spec.title_from_filename name.
Proof.
  destruct (Spec.title_from_filename name) as [|c t] eqn:Ht; [|reflexivity].
  cbn [or_else]. by apply title_from_filename_empty.
Qed.

(** X2: when ebooklib is not installed or the file cannot be read, the
    entry's title is the one derived from the file name (hyphens and
    underscores as spaces, title-cased), its author is "Unknown" and its
    description is the generated sentence. *)
Theorem unparsed_entry_from_filename avail f fb covers :
  avail = false \/ Epub.read_epub f = None ->
  title (generate_book_entry avail f fb covers)
    = Spec.title_from_filename (Epub.name f) /\
  author (generate_book_entry avail f fb covers) = "Unknown" /\
  description (generate_book_entry avail f fb covers)
    = "A " +:+ lower (genre (generate_book_entry avail f fb covers))
        +:+ " book by Unknown.".
Proof.
  intros Hcase.
  assert (Hmeta : extract_epub_metadata avail f
                  = {| md_title := Some (Spec.title_from_filename (Epub.name f));
                       md_author := None; md_language := None;
                       md_description := None |}).
  { unfold extract_epub_metadata. destruct Hcase as [->| ->]; [reflexivity|].
    destruct avail; reflexivity. }
  cbn [generate_book_entry title author description genre].
  rewrite Hmeta. cbn [md_title md_author md_description].
  rewrite or_else_title. repeat split.
Qed.

Lemma unparsed_entry_from_filename_witness :
  title (generate_book_entry true Sample.broken "epubs" None) = "Broken".
Proof.
  refine (proj1 (unparsed_entry_from_filename true Sample.broken "epubs" None _)).
  right. reflexivity.
Defined.

Lemma occurs_replace_other o n c s :
  c <> n -> Derived.occurs c s = false ->
  Derived.occurs c (replace (String o "") (String n "") s) = false.
Proof.
  intros Hcn. induction s as [|a s IH]; [reflexivity|].
  cbn [Derived.occurs]. intros [Ha Hs]%orb_false_iff.
  rewrite replace_char_cons. destruct (Ascii.eqb o a).
  - change (String n "" +:+ ?x) with (String n x). cbn [Derived.occurs].
    rewrite (proj2 (Ascii.eqb_neq n c)) by congruence. by apply IH.
  - change (String a "" +:+ ?x) with (String a x). cbn [Derived.occurs].
    rewrite Ha. by apply IH.
Qed.

Lemma replace_absent o n s :
  Derived.occurs o s = false -> replace (String o "") n s = s.
Proof.
  induction s as [|a s IH]; [reflexivity|].
  cbn [Derived.occurs]. intros [Ha Hs]%orb_false_iff.
  rewrite replace_char_cons, Ascii.eqb_sym, Ha, IH by exact Hs. reflexivity.
Qed.

(** X3: for a book that is read but has no (or an empty) title, the title
    of the entry is the file-name title whenever the stem of the file name
    has no underscore. *)
Theorem untitled_entry_without_underscore f fb covers book :
  Epub.read_epub f = Some book ->
  truthy (Epub.first_value (Epub.get_metadata book "DC" "title")) = false ->
  Derived.occurs "_" (PyPath.stem (Epub.name f)) = false ->
  title (generate_book_entry true f fb covers)
  = Spec.title_from_filename (Epub.name f).
Proof.
  intros Hbook Hnone Hunder. cbn [generate_book_entry title].
  unfold extract_epub_metadata. cbn [negb]. rewrite Hbook. cbn [md_title].
  unfold Spec.title_from_filename.
  rewrite (replace_absent "_" " ") by (apply occurs_replace_other; [discriminate|exact Hunder]).
  destruct (Epub.first_value (Epub.get_metadata book "DC" "title")) as [[|c t]|];
    [reflexivity|discriminate|reflexivity].
Qed.

Lemma untitled_entry_without_underscore_witness :
  title (generate_book_entry true
           {| Epub.name := "peter-pan.epub";
              Epub.read_epub := Epub.read_epub Sample.peter_pan;
              Epub.getsize := 1 |} "epubs" None)
  = "Peter Pan".
Proof.
  refine (untitled_entry_without_underscore _ "epubs" None _ _ _ _);
    reflexivity.
Defined.

End EntryFallbacks.

(** ** The ranges of the classifiers *)

Section Classifiers.
Import PyStr GenerateCatalog.

Lemma guess_genre_in_genres t a tags : guess_genre t a tags ∈ Derived.genres.
Proof.
  unfold guess_genre, Derived.genres.
  generalize (lower t) (if String.eqb a "" then "" else lower a)
             (lower (join " " tags)).
  intros tl al gl.
  repeat (match goal with |- context [if ?b then _ else _] => destruct b end);
    set_solver.
Qed.

Lemma guess_age_rating_in_order t g tags : guess_age_rating t g tags ∈ age_order.
Proof.
  unfold guess_age_rating, age_order.
  generalize (lower t) (lower (join " " tags)) (lower g). intros tl gl al.
  repeat (match goal with |- context [if ?b then _ else _] => destruct b end);
    set_solver.
Qed.

(** X4: [guess_genre] returns one of eight genres, whatever the title,
    the author and the tags, and the default Fiction only for a title
    that holds none of the title keywords. *)
Theorem guess_genre_range t a tags :
  guess_genre t a tags ∈ Derived.genres /\
  (guess_genre t a tags = "Fiction" ->
   any_in ["mystery"; "detective"; "murder"; "crime"; "fantasy"; "wizard";
           "magic"; "dragon"; "romance"; "love"; "heart"; "horror"; "terror";
           "vampire"; "zombie"; "science"; "space"; "robot"; "future"; "kid"]
     (lower t) = false).
Proof.
  split; [apply guess_genre_in_genres|].
  unfold guess_genre.
  generalize (lower t) (if String.eqb a "" then "" else lower a)
             (lower (join " " tags)).
  intros tl al gl. unfold any_in. cbn [existsb].
  repeat (destruct (contains _ tl); [cbn; discriminate|]).
  destruct (contains "kid" tl); [rewrite orb_true_r; discriminate|].
  intros _. reflexivity.
Qed.

(** X5: [guess_age_rating] returns one of the three ages that
    [create_collections] makes collections for, and Adult only for a title
    without children or young-adult keyword. *)
Theorem guess_age_rating_range t g tags :
  guess_age_rating t g tags ∈ age_order /\
  (guess_age_rating t g tags = "Adult" ->
   any_in ["children"; "kid"; "little"; "pooh"; "curious george";
           "hardy boys"; "nancy drew"; "young"] (lower t) = false).
Proof.
  split; [apply guess_age_rating_in_order|].
  unfold guess_age_rating.
  generalize (lower t) (lower (join " " tags)) (lower g). intros tl gl al.
  unfold any_in. cbn [existsb].
  repeat (destruct (contains _ tl);
          [cbn;
           repeat (match goal with
                   | |- context [if ?b then _ else _] => destruct b
                   end);
           discriminate|]).
  intros _. reflexivity.
Qed.

Lemma classic_tag_age t g :
  g ∈ Derived.genres ->
  guess_age_rating t g ["Classic"] = Derived.age_of_title_and_genre t g.
Proof.
  intros Hg. unfold guess_age_rating, Derived.age_of_title_and_genre.
  replace (lower (join " " ["Classic"])) with "classic" by reflexivity.
  replace (contains "children" "classic" || contains "picture book" "classic")
    with false by reflexivity.
  replace (contains "young adult" "classic" || contains "ya" "classic")
    with false by reflexivity.
  generalize (lower t). intros tl.
  destruct (any_in _ tl); [reflexivity|].
  destruct (any_in _ tl); [reflexivity|].
  unfold Derived.genres in Hg.
  repeat (apply elem_of_cons in Hg as [->|Hg]; [reflexivity|]).
  by apply elem_of_nil in Hg.
Qed.

(** X6: the age of a generated entry is decided by its title and genre
    alone: Children for a children keyword in the title, else Young Adult
    for a young-adult keyword, else Young Adult for the Horror genre, else
    Adult. With the fixed tag list the tag rules never apply, and no genre
    the classifier returns is Gothic. *)
Theorem entry_age_of_title_and_genre avail f fb covers :
  age (generate_book_entry avail f fb covers)
  = Derived.age_of_title_and_genre
      (title (generate_book_entry avail f fb covers))
      (genre (generate_book_entry avail f fb covers)) /\
  age (generate_book_entry avail f fb covers) ∈ age_order /\
  genre (generate_book_entry avail f fb covers) ∈ Derived.genres /\
  tags (generate_book_entry avail f fb covers) = ["Classic"].
Proof.
  cbn [generate_book_entry age title genre tags].
  split; [apply classic_tag_age, guess_genre_in_genres|].
  split; [apply guess_age_rating_in_order|].
  split; [apply guess_genre_in_genres|reflexivity].
Qed.

End Classifiers.

(** ** The shape of the collections list *)

Section CollectionsLayout.
Import PyStr GenerateCatalog.

Implicit Types (books : list BookEntry) (cs : list Collection) (n : Z).

Lemma item_le_total : Total item_le.
Proof. intros x y. unfold item_le. apply (total String.le). Qed.

Lemma item_le_trans : Transitive item_le.
Proof. intros x y z. unfold item_le. apply (transitivity (R := String.le)). Qed.

Lemma StronglySorted_filter {A} (R : relation A) (P : A -> Prop)
    `{forall x, Decision (P x)} (l : list A) :
  StronglySorted R l -> StronglySorted R (filter P l).
Proof.
  induction 1 as [|x l Hl IH Hx]; [constructor|].
  destruct (decide (P x)) as [HP|HP].
  - rewrite filter_cons_True by exact HP. constructor; [exact IH|].
    apply Forall_forall. intros y [_ Hy]%list_elem_of_filter.
    rewrite Forall_forall in Hx. by apply Hx.
  - rewrite filter_cons_False by exact HP. exact IH.
Qed.

(** *** Referential integrity *)

Lemma ids_where_elem key k books i :
  i ∈ Spec.ids_where key k books -> exists b, b ∈ books /\ id b = i /\ key b = k.
Proof.
  unfold Spec.ids_where. intros (b & -> & Hb)%list_elem_of_fmap.
  apply list_elem_of_filter in Hb as [Hk Hb]. eauto.
Qed.

(** X7: every id listed by a collection is the id of a book of the list
    the collections were made from. *)
Theorem collection_ids_refer_to_books books :
  Forall (fun c => Forall (fun i => exists b, b ∈ books /\ id b = i) (c_bookIds c))
    (create_collections books).
Proof.
  apply Forall_forall. intros c Hc. apply Forall_forall. intros i Hi.
  apply create_collections_elem in Hc
    as [->|[(a & k & _ & _ & ->)|(g & k & _ & ->)]]; cbn in Hi.
  - apply list_elem_of_fmap in Hi as (b & -> & Hb). eauto.
  - apply ids_where_elem in Hi as (b & Hb & Hid & _). eauto.
  - apply ids_where_elem in Hi as (b & Hb & Hid & _). eauto.
Qed.

(** *** Sort orders *)

Lemma seqZ_snoc (k : nat) : seqZ 0 (Z.of_nat k) ++ [Z.of_nat k] = seqZ 0 (Z.of_nat (S k)).
Proof. rewrite seqZ_S. f_equal. Qed.

Lemma numbered_snoc cs n (mk : Z -> Collection) :
  (forall k, c_sortOrder (mk k) = k) ->
  Derived.numbered (cs, n) -> Derived.numbered (cs ++ [mk n], n + 1).
Proof.
  intros Hmk [Hso Hn]. cbn [fst snd] in *. subst n. split; cbn [fst snd].
  - rewrite fmap_app, Hso. cbn [fmap list_fmap]. rewrite Hmk, length_app.
    cbn [length]. rewrite Nat.add_1_r. apply seqZ_snoc.
  - rewrite length_app. cbn [length]. lia.
Qed.

Lemma age_loop_numbered ages (l : list string) : forall st,
  Derived.numbered st -> Derived.numbered (foldl (age_step ages) st l).
Proof.
  induction l as [|a l IH]; intros [cs n] Hst; [exact Hst|].
  cbn [foldl]. apply IH. unfold age_step.
  destruct (ages !! a) as [[|i ids]|]; try exact Hst.
  by apply (numbered_snoc cs n (fun k => age_collection k a (i :: ids))).
Qed.

Lemma genre_loop_numbered (items : list (string * list string)) : forall st,
  Derived.numbered st -> Derived.numbered (foldl genre_step st items).
Proof.
  induction items as [|[g ids] items IH]; intros [cs n] Hst; [exact Hst|].
  cbn [foldl]. apply IH. unfold genre_step. case_bool_decide; [|exact Hst].
  by apply (numbered_snoc cs n (fun k => genre_collection k g ids)).
Qed.

(** X8: the sort orders of the collections are 0, 1, 2, ... in list
    order, 'All Books' having 0. *)
Theorem sort_orders_consecutive books :
  c_sortOrder <$> create_collections books
  = seqZ 0 (Z.of_nat (length (create_collections books))).
Proof.
  unfold create_collections.
  apply (genre_loop_numbered _ (foldl _ _ _)), age_loop_numbered.
  split; reflexivity.
Qed.

(** *** Order *)

Lemma age_loop_shape ages (l : list string) : forall cs n,
  exists added,
    (foldl (age_step ages) (cs, n) l).1 = cs ++ added /\
    c_name <$> added
    = (fun a => a +:+ " Books")
        <$> filter (fun a => default [] (ages !! a) <> []) l /\
    Forall (fun c => exists a, a ∈ l /\ Spec.is_age_collection a c) added.
Proof.
  induction l as [|a l IH]; intros cs n; cbn [foldl].
  { exists []. rewrite app_nil_r. repeat split; constructor. }
  unfold age_step at 2.
  destruct (ages !! a) as [[|i ids]|] eqn:Ha.
  - destruct (IH cs n) as (added & Heq & Hn & Hall). exists added.
    rewrite filter_cons_False by (rewrite Ha; cbn; congruence).
    repeat split; [exact Heq|exact Hn|].
    eapply Forall_impl; [exact Hall|]. intros c (b & Hb & Hc). exists b. split; [by right|done].
  - destruct (IH (cs ++ [age_collection n a (i :: ids)]) (n + 1))
      as (added & Heq & Hn & Hall).
    exists (age_collection n a (i :: ids) :: added).
    rewrite filter_cons_True by (rewrite Ha; cbn; congruence).
    rewrite Heq, <- app_assoc. repeat split.
    + cbn [fmap list_fmap]. cbn [c_name age_collection]. f_equal. exact Hn.
    + constructor; [exists a; split; [by left|done]|].
      eapply Forall_impl; [exact Hall|]. intros c (b & Hb & Hc). exists b.
      split; [by right|done].
  - destruct (IH cs n) as (added & Heq & Hn & Hall). exists added.
    rewrite filter_cons_False by (rewrite Ha; cbn; congruence).
    repeat split; [exact Heq|exact Hn|].
    eapply Forall_impl; [exact Hall|]. intros c (b & Hb & Hc). exists b. split; [by right|done].
Qed.

Lemma genre_loop_shape (items : list (string * list string)) : forall cs n,
  exists added,
    (foldl genre_step (cs, n) items).1 = cs ++ added /\
    c_name <$> added
    = fst <$> filter (fun item => (2 <= length item.2)%nat) items /\
    Forall (fun c => Spec.is_genre_collection (c_name c) c) added.
Proof.
  induction items as [|[g ids] items IH]; intros cs n; cbn [foldl].
  { exists []. rewrite app_nil_r. repeat split; constructor. }
  unfold genre_step at 2. case_bool_decide as Hlen.
  - destruct (IH (cs ++ [genre_collection n g ids]) (n + 1))
      as (added & Heq & Hn & Hall).
    exists (genre_collection n g ids :: added).
    rewrite filter_cons_True by exact Hlen.
    rewrite Heq, <- app_assoc. repeat split.
    + cbn [fmap list_fmap]. cbn [c_name genre_collection fst]. f_equal. exact Hn.
    + constructor; [done|exact Hall].
  - destruct (IH cs n) as (added & Heq & Hn & Hall). exists added.
    rewrite filter_cons_False by exact Hlen. done.
Qed.

Lemma sorted_items_keys d :
  StronglySorted String.le (sorted_items d).*1 /\ NoDup (sorted_items d).*1.
Proof.
  unfold sorted_items. split.
  - apply (StronglySorted_fmap fst item_le String.le); [intros x y Hxy; exact Hxy|].
    apply (@Sorted_StronglySorted _ item_le item_le_trans).
    apply (@Sorted_merge_sort _ item_le _ item_le_total).
  - rewrite merge_sort_Permutation. apply NoDup_fst_map_to_list.
Qed.

Lemma filtered_keys_sorted (P : string * list string -> Prop)
    `{forall x, Decision (P x)} (items : list (string * list string)) :
  StronglySorted String.le items.*1 -> NoDup items.*1 ->
  StronglySorted String.le (filter P items).*1 /\ NoDup (filter P items).*1.
Proof.
  induction items as [|[g ids] items IH]; cbn [fmap list_fmap fst];
    [intros; split; constructor|].
  intros [Hhd Hs]%StronglySorted_cons [Hnotin Hnd]%NoDup_cons.
  destruct (IH Hs Hnd) as [IHs IHn].
  destruct (decide (P (g, ids))) as [HP|HP].
  - rewrite filter_cons_True by exact HP. cbn [fmap list_fmap fst]. split.
    + apply StronglySorted_cons. split; [|exact IHs].
      apply Forall_forall. intros k Hk. rewrite Forall_forall in Hhd. apply Hhd.
      apply list_elem_of_fmap in Hk as (x & -> & Hx).
      apply list_elem_of_filter in Hx as [_ Hx]. by apply list_elem_of_fmap_2.
    + apply NoDup_cons. split; [|exact IHn]. intros Hk. apply Hnotin.
      apply list_elem_of_fmap in Hk as (x & -> & Hx).
      apply list_elem_of_filter in Hx as [_ Hx]. by apply list_elem_of_fmap_2.
  - rewrite filter_cons_False by exact HP. done.
Qed.

(** X9: the collections list is 'All Books', then the age collections in
    the order Children, Young Adult, Adult (each only when a book of the
    list has that age), then the genre collections in ascending order of
    their names, no name twice. *)
Theorem collections_layout books :
  exists by_age by_genre,
    create_collections books = all_books books :: by_age ++ by_genre /\
    c_name <$> by_age
    = (fun a => a +:+ " Books")
        <$> filter (fun a => Spec.ids_where age a books <> []) age_order /\
    Forall (fun c => Spec.is_genre_collection (c_name c) c) by_genre /\
    StronglySorted String.le (c_name <$> by_genre) /\
    NoDup (c_name <$> by_genre).
Proof.
  unfold create_collections.
  destruct (age_loop_shape (group_by age books) age_order [all_books books] 1)
    as (by_age & Hage & Hnames & _).
  destruct (foldl (age_step (group_by age books)) ([all_books books], 1) age_order)
    as [cs1 n1] eqn:Hst1. cbn [fst] in Hage. subst cs1.
  destruct (genre_loop_shape (sorted_items (group_by genre books))
              ([all_books books] ++ by_age) n1) as (by_genre & Hgenre & Hgn & Hall).
  exists by_age, by_genre. rewrite Hgenre.
  split; [reflexivity|]. repeat split.
  - rewrite Hnames. f_equal. apply list_filter_iff. intros a.
    rewrite group_by_lookup. destruct (Spec.ids_where age a books); cbn; split; congruence.
  - exact Hall.
  - rewrite Hgn. apply filtered_keys_sorted; apply sorted_items_keys.
  - rewrite Hgn. apply filtered_keys_sorted; apply sorted_items_keys.
Qed.

(** *** Every book has its age collection *)

Lemma age_loop_present ages (l : list string) a i ids :
  a ∈ l -> ages !! a = Some (i :: ids) ->
  forall cs n, exists k, age_collection k a (i :: ids) ∈ (foldl (age_step ages) (cs, n) l).1.
Proof.
  induction l as [|b l IH]; intros Hin Ha cs n; [by inversion Hin|].
  cbn [foldl]. apply elem_of_cons in Hin as [<-|Hin].
  - unfold age_step at 2. rewrite Ha. exists n.
    apply age_loop_mono, elem_of_app. right. by apply list_elem_of_singleton.
  - destruct (age_step ages (cs, n) b) as [cs' n']. by apply IH.
Qed.

Lemma age_collection_present books a :
  a ∈ age_order -> Spec.ids_where age a books <> [] ->
  exists k, age_collection k a (Spec.ids_where age a books) ∈ create_collections books.
Proof.
  intros Ha Hne. unfold create_collections.
  destruct (Spec.ids_where age a books) as [|i ids] eqn:Hids; [done|].
  destruct (age_loop_present (group_by age books) age_order a i ids Ha
              (eq_trans (group_by_lookup age books a)
                 ltac:(rewrite Hids; reflexivity)) [all_books books] 1) as [k Hk].
  exists k.
  destruct (foldl (age_step (group_by age books)) ([all_books books], 1) age_order)
    as [cs1 n1]. by apply genre_loop_mono.
Qed.

(** X10: in a generated catalog every book is listed by the age collection
    of its own age (and by 'All Books'). *)
Theorem catalog_books_in_age_collection avail today dir fb covers catalog :
  generate_catalog avail today dir fb covers = Some catalog ->
  Forall (fun b =>
    (exists c, c ∈ collections catalog /\ Spec.is_age_collection (age b) c /\
               id b ∈ c_bookIds c) /\
    (exists c, c ∈ collections catalog /\ c_name c = "All Books" /\
               id b ∈ c_bookIds c))
    (books catalog).
Proof.
  unfold generate_catalog. destruct (Epub.glob_epub dir) as [|f0 files0]; [done|].
  intros [= <-]. cbn [collections books].
  set (bs := _ <$> Epub.sorted (f0 :: files0)).
  apply Forall_forall. intros b Hb.
  assert (Hid : id b ∈ Spec.ids_where age (age b) bs).
  { unfold Spec.ids_where. apply list_elem_of_fmap_2, list_elem_of_filter. done. }
  split.
  - assert (Hage : age b ∈ age_order).
    { apply list_elem_of_fmap in Hb as (f & -> & _). apply guess_age_rating_in_order. }
    destruct (age_collection_present bs (age b) Hage) as [k Hk].
    { intros Hnil. rewrite Hnil in Hid. by apply elem_of_nil in Hid. }
    eexists. split; [exact Hk|]. split; [done|exact Hid].
  - exists (all_books bs). split; [apply all_books_first|]. split; [done|].
    by apply list_elem_of_fmap_2.
Qed.

Lemma catalog_books_in_age_collection_witness :
  Forall (fun b =>
    (exists c, c ∈ create_collections
                 [generate_book_entry true Sample.peter_pan "epubs" None] /\
               Spec.is_age_collection (age b) c /\ id b ∈ c_bookIds c) /\
    (exists c, c ∈ create_collections
                 [generate_book_entry true Sample.peter_pan "epubs" None] /\
               c_name c = "All Books" /\ id b ∈ c_bookIds c))
    [generate_book_entry true Sample.peter_pan "epubs" None].
Proof.
  exact (catalog_books_in_age_collection true "2024-01-01" [Sample.peter_pan]
           "epubs" None
           {| version := 1; lastUpdated := "2024-01-01";
              collections := create_collections
                [generate_book_entry true Sample.peter_pan "epubs" None];
              books := [generate_book_entry true Sample.peter_pan "epubs" None] |}
           eq_refl).
Defined.

End CollectionsLayout.

(** ** The catalog generator as a whole *)

Section CatalogRuns.
Import PyStr GenerateCatalog.

Lemma name_le_total : Total Epub.name_le.
Proof. intros x y. unfold Epub.name_le. apply (total String.le). Qed.

Lemma name_le_trans : Transitive Epub.name_le.
Proof. intros x y z. unfold Epub.name_le. apply (transitivity (R := String.le)). Qed.

Lemma sorted_length files : length (Epub.sorted files) = length files.
Proof. unfold Epub.sorted. by rewrite merge_sort_Permutation. Qed.

Lemma sorted_strongly files : StronglySorted Epub.name_le (Epub.sorted files).
Proof.
  apply (@Sorted_StronglySorted _ Epub.name_le name_le_trans).
  apply (@Sorted_merge_sort _ Epub.name_le _ name_le_total).
Qed.

Lemma same_name_same_file (l : list Epub.File) x y :
  NoDup (Epub.name <$> l) -> x ∈ l -> y ∈ l -> Epub.name x = Epub.name y -> x = y.
Proof.
  induction l as [|z l IH]; [by inversion 2|].
  cbn [fmap list_fmap]. intros [Hz Hnd]%NoDup_cons Hx Hy Heq.
  apply elem_of_cons in Hx as [->|Hx]; apply elem_of_cons in Hy as [->|Hy].
  - reflexivity.
  - exfalso. apply Hz. rewrite Heq. by apply list_elem_of_fmap_2.
  - exfalso. apply Hz. rewrite <- Heq. by apply list_elem_of_fmap_2.
  - by apply IH.
Qed.

(** The sorted list of EPUB files does not depend on the order in which
    the directory lists them. *)
Lemma sorted_glob_listing_order dir1 dir2 :
  dir1 ≡ₚ dir2 -> NoDup (Epub.name <$> dir1) ->
  Epub.sorted (Epub.glob_epub dir1) = Epub.sorted (Epub.glob_epub dir2).
Proof.
  intros Hperm Hnd.
  assert (Hglob : Epub.sorted (Epub.glob_epub dir1) ≡ₚ Epub.sorted (Epub.glob_epub dir2)).
  { unfold Epub.sorted, Epub.glob_epub.
    rewrite !merge_sort_Permutation. by rewrite Hperm. }
  apply (StronglySorted_unique_strong Epub.name_le);
    [|apply sorted_strongly|apply sorted_strongly|exact Hglob].
  intros x1 x2 Hx1 Hx2 H12 H21.
  assert (Hin : forall x, x ∈ Epub.sorted (Epub.glob_epub dir1) -> x ∈ dir1).
  { intros x. unfold Epub.sorted, Epub.glob_epub.
    rewrite merge_sort_Permutation. by intros [_ ?]%list_elem_of_filter. }
  apply (same_name_same_file dir1); [exact Hnd|by apply Hin| |].
  - apply Hin. by rewrite Hglob.
  - apply (anti_symm String.le); assumption.
Qed.


(** X12: the catalog does not depend on the order in which the directory
    lists its files, as long as no two files have the same name. *)
Theorem catalog_listing_order avail today dir1 dir2 fb covers :
  dir1 ≡ₚ dir2 -> NoDup (Epub.name <$> dir1) ->
  generate_catalog avail today dir1 fb covers
  = generate_catalog avail today dir2 fb covers.
Proof.
  intros Hperm Hnd. unfold generate_catalog.
  pose proof (sorted_glob_listing_order dir1 dir2 Hperm Hnd) as Hs.
  assert (Hp : Epub.glob_epub dir1 ≡ₚ Epub.glob_epub dir2)
    by (unfold Epub.glob_epub; by rewrite Hperm).
  destruct (Epub.glob_epub dir1) as [|f1 l1], (Epub.glob_epub dir2) as [|f2 l2].
  - reflexivity.
  - by apply Permutation_nil_cons in Hp.
  - symmetry in Hp. by apply Permutation_nil_cons in Hp.
  - rewrite Hs. reflexivity.
Qed.

Lemma catalog_listing_order_witness :
  generate_catalog true "2024-01-01" [Sample.peter_pan; Sample.broken] "epubs" None
  = generate_catalog true "2024-01-01" [Sample.broken; Sample.peter_pan] "epubs" None.
Proof.
  apply catalog_listing_order.
  - apply perm_swap.
  - cbn. apply NoDup_cons. split; [|apply NoDup_singleton].
    intros Hin%list_elem_of_singleton. discriminate.
Defined.

End CatalogRuns.

(** ** Where a cover comes from *)

Section CoverOrigin.
Import ExtractCovers.

Lemma first_content_origin test items prev c :
  first_content test items prev = Some c ->
  (exists item, item ∈ items /\ test item = true /\ Epub.get_content item = c) \/
  prev = Some c.
Proof.
  unfold first_content. destruct (List.find test items) as [item|] eqn:Hfind.
  - intros [= <-]. left. apply find_some in Hfind as [Hin Htest].
    exists item. by rewrite list_elem_of_In.
  - by right.
Qed.

(** X13: a cover that is returned is the content of an item of the book,
    and that item is the explicit cover item, an image, or the item the
    OPF cover metadata names. *)
Theorem cover_is_item_content f c :
  extract_cover_from_epub f = Some c ->
  exists book item,
    Epub.read_epub f = Some book /\ item ∈ Epub.get_items book /\
    Epub.get_content item = c /\
    (Epub.get_type item = Epub.ITEM_COVER \/
     Epub.get_type item = Epub.ITEM_IMAGE \/
     exists value attrs rest,
       Epub.get_metadata book "OPF" "cover" = (value, attrs) :: rest /\
       Epub.get_id item = default "" (attrs !! "content")).
Proof.
  unfold extract_cover_from_epub. destruct (Epub.read_epub f) as [book|]; [|done].
  intros Hc. exists book.
  assert (Hgoal : forall P : Prop,
            (forall item, item ∈ Epub.get_items book -> Epub.get_content item = c ->
               (Epub.get_type item = Epub.ITEM_COVER \/
                Epub.get_type item = Epub.ITEM_IMAGE \/
                exists value attrs rest,
                  Epub.get_metadata book "OPF" "cover" = (value, attrs) :: rest /\
                  Epub.get_id item = default "" (attrs !! "content")) -> P) -> P).
  { intros P HP. unfold find_cover in Hc.
    set (c1 := first_content is_cover_item (Epub.get_items book) None) in *.
    assert (H1 : forall x, c1 = Some x -> x = c -> P).
    { intros x Hx ->. apply first_content_origin in Hx as [(i & Hi & Ht & Hcont)|?]; [|done].
      apply (HP i Hi Hcont). left. by apply bool_decide_eq_true in Ht. }
    destruct (truthy_bytes c1); [destruct c1 as [x|]; [|done]; injection Hc as ->; eauto|].
    set (c2 := match Epub.get_metadata book "OPF" "cover" with
               | [] => c1
               | (_, attrs) :: _ =>
                   first_content (has_id (default "" (attrs !! "content")))
                     (Epub.get_items book) c1
               end) in *.
    assert (H2 : forall x, c2 = Some x -> x = c -> P).
    { intros x Hx ->. subst c2.
      destruct (Epub.get_metadata book "OPF" "cover") as [|[v attrs] rest] eqn:Hmeta;
        [eauto|].
      apply first_content_origin in Hx as [(i & Hi & Ht & Hcont)|?]; [|eauto].
      apply (HP i Hi Hcont). right; right. exists v, attrs, rest.
      split; [reflexivity|]. by apply bool_decide_eq_true in Ht. }
    destruct (truthy_bytes c2); [destruct c2 as [x|]; [|done]; injection Hc as ->; eauto|].
    set (c3 := first_content is_cover_named_image (Epub.get_items book) c2) in *.
    assert (H3 : forall x, c3 = Some x -> x = c -> P).
    { intros x Hx ->. apply first_content_origin in Hx as [(i & Hi & Ht & Hcont)|?]; [|eauto].
      apply (HP i Hi Hcont). right; left.
      apply andb_true_iff in Ht as [Ht _]. by apply bool_decide_eq_true in Ht. }
    destruct (truthy_bytes c3); [destruct c3 as [x|]; [|done]; injection Hc as ->; eauto|].
    apply first_content_origin in Hc as [(i & Hi & Ht & Hcont)|?]; [|eauto].
    apply (HP i Hi Hcont). right; left. by apply bool_decide_eq_true in Ht. }
  apply Hgoal. intros item Hin Hcont Hkind. exists item. done.
Qed.

Lemma cover_is_item_content_witness :
  exists book item,
    Epub.read_epub Sample.with_cover = Some book /\ item ∈ Epub.get_items book /\
    Epub.get_content item = [xff; xd8] /\
    (Epub.get_type item = Epub.ITEM_COVER \/
     Epub.get_type item = Epub.ITEM_IMAGE \/
     exists value attrs rest,
       Epub.get_metadata book "OPF" "cover" = (value, attrs) :: rest /\
       Epub.get_id item = default "" (attrs !! "content")).
Proof. exact (cover_is_item_content Sample.with_cover [xff; xd8] eq_refl). Defined.

End CoverOrigin.

(** ** What a run of the extractor writes *)

Section ExtractorRuns.
Import PyStr ExtractCovers.
Context `{PIL.Host}.

Implicit Types (st : LoopState) (f : Epub.File) (files : list Epub.File).
Implicit Types (output_dir : gmap string bytes) (data : bytes).

Lemma process_epub_origin secret cp st f name data :
  st.1.1 !! name = None ->
  (process_epub secret cp st f).1.1 !! name = Some data ->
  output_file f = name /\ Derived.written_for secret cp f data.
Proof.
  destruct st as [[output_dir e] p]. cbn [fst]. intros Hnone.
  unfold process_epub. case_bool_decide as Hex; [cbn [fst]; congruence|].
  destruct (extract_cover_from_epub f) as [[|b cover]|] eqn:Hcover; cbn [truthy_bytes].
  2:{ cbn [fst]. intros Hl. destruct (decide (output_file f = name)) as [Heq|Hne].
      - rewrite Heq, lookup_insert_eq in Hl. injection Hl as <-.
        split; [exact Heq|]. left. exists (b :: cover). rewrite Hcover. done.
      - rewrite lookup_insert_ne in Hl by exact Hne. congruence. }
  all: destruct cp; [|cbn [fst]; congruence].
  all: destruct (make_placeholder secret f _) as [pdata|] eqn:Hp;
    [|cbn [fst]; congruence].
  all: cbn [fst]; intros Hl;
    destruct (decide (output_file f = name)) as [Heq|Hne];
    [|rewrite lookup_insert_ne in Hl by exact Hne; congruence].
  all: rewrite Heq, lookup_insert_eq in Hl; injection Hl as <-.
  all: split; [exact Heq|]; right; rewrite Hcover; done.
Qed.

Lemma loop_origin secret cp files name data : forall st,
  st.1.1 !! name = None ->
  (foldl (process_epub secret cp) st files).1.1 !! name = Some data ->
  exists f, f ∈ files /\ output_file f = name /\ Derived.written_for secret cp f data.
Proof.
  induction files as [|f files IH]; intros st Hnone Hl; cbn [foldl] in Hl.
  { congruence. }
  destruct ((process_epub secret cp st f).1.1 !! name) as [d|] eqn:Hstep.
  - pose proof (loop_preserves secret cp files _ _ _ Hstep) as Hkeep.
    assert (d = data) as -> by congruence.
    destruct (process_epub_origin secret cp st f name data Hnone Hstep) as [Hf Hw].
    exists f. split; [by left|done].
  - destruct (IH _ Hstep Hl) as (g & Hg & Hname & Hw).
    exists g. split; [by right|done].
Qed.

(** X14: a file that a run adds to the output directory is named after the
    book id of an EPUB of the input directory and holds either the resized
    embedded cover of that EPUB or, with placeholders enabled and no cover
    found, the placeholder made for it. *)
Theorem new_files_come_from_books secret dir output_dir cp name data :
  output_dir !! name = None ->
  (extract_all_covers secret dir output_dir cp).1.1 !! name = Some data ->
  exists f, f ∈ Epub.glob_epub dir /\ output_file f = name /\
            Derived.written_for secret cp f data.
Proof.
  intros Hnone. unfold extract_all_covers.
  destruct (Epub.glob_epub dir) as [|g files] eqn:Hglob; [cbn [fst]; congruence|].
  intros Hl.
  destruct (loop_origin secret cp _ name data (output_dir, 0, 0) Hnone Hl)
    as (f & Hf & Hrest).
  exists f. split; [|exact Hrest].
  unfold Epub.sorted in Hf. by rewrite merge_sort_Permutation in Hf.
Qed.

(** *** Counters *)

Lemma process_epub_counts secret cp st f :
  let st' := process_epub secret cp st f in
  0 <= st'.1.2 - st.1.2 /\ 0 <= st'.2 - st.2 /\
  (st'.1.2 - st.1.2) + (st'.2 - st.2) <= 1 /\
  Z.of_nat (size st'.1.1)
  = Z.of_nat (size st.1.1) + (st'.1.2 - st.1.2) + (st'.2 - st.2) /\
  (cp = false -> st'.2 = st.2).
Proof.
  destruct st as [[output_dir e] p]. cbn zeta. unfold process_epub.
  case_bool_decide as Hex; [cbn [fst snd]; lia|].
  assert (Hnone : output_dir !! output_file f = None).
  { destruct (output_dir !! output_file f) eqn:Hl; [|reflexivity].
    exfalso. apply Hex. eauto. }
  destruct (truthy_bytes (extract_cover_from_epub f)); cbn [fst snd].
  { rewrite map_size_insert_None by exact Hnone. lia. }
  destruct cp; [|cbn [fst snd]; lia].
  destruct (make_placeholder secret f _); cbn [fst snd]; [|lia].
  rewrite map_size_insert_None by exact Hnone. split; [lia|].
  split; [lia|]. split; [lia|]. split; [lia|discriminate].
Qed.

Lemma loop_counts secret cp files : forall st,
  let st' := foldl (process_epub secret cp) st files in
  0 <= st'.1.2 - st.1.2 /\ 0 <= st'.2 - st.2 /\
  (st'.1.2 - st.1.2) + (st'.2 - st.2) <= Z.of_nat (length files) /\
  Z.of_nat (size st'.1.1)
  = Z.of_nat (size st.1.1) + (st'.1.2 - st.1.2) + (st'.2 - st.2) /\
  (cp = false -> st'.2 = st.2).
Proof.
  induction files as [|f files IH]; intros st; cbn zeta.
  { cbn [foldl length]. repeat split; lia. }
  cbn [foldl]. specialize (IH (process_epub secret cp st f)). cbn zeta in IH.
  pose proof (process_epub_counts secret cp st f) as Hstep. cbn zeta in Hstep.
  destruct IH as (I1 & I2 & I3 & I4 & I5), Hstep as (S1 & S2 & S3 & S4 & S5).
  cbn [length]. repeat split; try lia.
  intros Hcp. rewrite I5, S5 by exact Hcp. reflexivity.
Qed.

(** X15: after a run the two counters are not negative, together they
    count the files the run added to the output directory, which are at
    most one per EPUB file, and with placeholders disabled the placeholder
    count is 0. *)
Theorem counters_count_new_files secret dir output_dir cp :
  let st := extract_all_covers secret dir output_dir cp in
  0 <= st.1.2 /\ 0 <= st.2 /\
  st.1.2 + st.2 <= Z.of_nat (length (Epub.glob_epub dir)) /\
  Z.of_nat (size st.1.1) = Z.of_nat (size output_dir) + st.1.2 + st.2 /\
  (cp = false -> st.2 = 0).
Proof.
  cbn zeta. unfold extract_all_covers.
  destruct (Epub.glob_epub dir) as [|g files] eqn:Hglob.
  { cbn [fst snd length]. repeat split; lia. }
  pose proof (loop_counts secret cp (Epub.sorted (g :: files)) (output_dir, 0, 0)) as Hc.
  cbn zeta in Hc. cbn [fst snd] in Hc. rewrite sorted_length in Hc.
  destruct Hc as (C1 & C2 & C3 & C4 & C5). repeat split; try lia. exact C5.
Qed.

(** *** Running again *)

(** X16: running the extractor again on the directory a run left, with the
    same placeholder option and whatever the hash secret of the new
    process, changes no file and reports no cover as extracted or made. *)
Theorem second_run_is_noop secret secret' dir output_dir cp :
  extract_all_covers secret' dir
    (extract_all_covers secret dir output_dir cp).1.1 cp
  = ((extract_all_covers secret dir output_dir cp).1.1, 0, 0).
Proof.
  set (after := (extract_all_covers secret dir output_dir cp).1.1).
  assert (Hafter : forall f, f ∈ Epub.glob_epub dir -> Spec.writes cp f = true ->
                             is_Some (after !! output_file f))
    by (intros f; apply extract_all_covers_output_exists).
  unfold extract_all_covers at 1.
  destruct (Epub.glob_epub dir) as [|g files] eqn:Hglob; [reflexivity|].
  apply loop_noop. intros f Hf. apply Hafter. unfold Epub.sorted in Hf.
  by rewrite merge_sort_Permutation in Hf.
Qed.

(** X17: the result of a run does not depend on the order in which the
    input directory lists its files, as long as no two files have the same
    name. *)
Theorem extractor_listing_order secret dir1 dir2 output_dir cp :
  dir1 ≡ₚ dir2 -> NoDup (Epub.name <$> dir1) ->
  extract_all_covers secret dir1 output_dir cp
  = extract_all_covers secret dir2 output_dir cp.
Proof.
  intros Hperm Hnd. unfold extract_all_covers.
  pose proof (sorted_glob_listing_order dir1 dir2 Hperm Hnd) as Hs.
  assert (Hp : Epub.glob_epub dir1 ≡ₚ Epub.glob_epub dir2)
    by (unfold Epub.glob_epub; by rewrite Hperm).
  destruct (Epub.glob_epub dir1) as [|f1 l1], (Epub.glob_epub dir2) as [|f2 l2].
  - reflexivity.
  - by apply Permutation_nil_cons in Hp.
  - symmetry in Hp. by apply Permutation_nil_cons in Hp.
  - rewrite Hs. reflexivity.
Qed.

(** *** The catalog after the extractor *)

(** X18: when the catalog is generated with the directory the extractor
    left as its covers directory, the entry of every EPUB for which the
    extractor writes (a cover is found, or placeholders are enabled and the
    book can be read) points to the bundled cover named after its id. *)
Theorem extracted_cover_is_linked secret dir output_dir cp avail fb f :
  f ∈ Epub.glob_epub dir -> Spec.writes cp f = true ->
  GenerateCatalog.coverImageUrl
    (GenerateCatalog.generate_book_entry avail f fb
       (Some (extract_all_covers secret dir output_dir cp).1.1))
  = Some ("BookCovers/"
          +:+ GenerateCatalog.id
                (GenerateCatalog.generate_book_entry avail f fb
                   (Some (extract_all_covers secret dir output_dir cp).1.1))
          +:+ ".png").
Proof.
  intros Hin Hw.
  pose proof (extract_all_covers_output_exists secret dir output_dir cp f Hin Hw) as Hex.
  cbn [GenerateCatalog.generate_book_entry GenerateCatalog.coverImageUrl
       GenerateCatalog.id].
  unfold output_file in Hex. rewrite bool_decide_eq_true_2 by exact Hex.
  reflexivity.
Qed.

End ExtractorRuns.

(** ** The placeholder drawing *)

Section Placeholder.
Import PyStr ExtractCovers.
Context `{PIL.Host}.

(** *** Word wrap *)

Lemma rev_app_nonempty s acc : acc <> "" -> String.rev_app s acc <> "".
Proof.
  revert acc. induction s as [|c s IH]; intros acc Hacc; [exact Hacc|].
  cbn [String.rev_app]. by apply IH.
Qed.

Lemma split_go_nonempty s : forall cur,
  (forall c, cur = Some c -> c <> "") ->
  Forall (fun w => w <> "") (split_go cur s).
Proof.
  induction s as [|a s IH]; intros cur Hcur; cbn [split_go].
  - destruct cur as [c|]; cbn; [|constructor].
    constructor; [|constructor]. specialize (Hcur c eq_refl).
    destruct c as [|x c]; [done|]. unfold String.rev. cbn [String.rev_app].
    by apply rev_app_nonempty.
  - destruct (is_space a).
    + apply Forall_app. split; [|by apply IH].
      destruct cur as [c|]; cbn; [|constructor].
      constructor; [|constructor]. specialize (Hcur c eq_refl).
      destruct c as [|x c]; [done|]. unfold String.rev. cbn [String.rev_app].
      by apply rev_app_nonempty.
    + apply IH. by intros c [= <-].
Qed.

Lemma split_nonempty s : Forall (fun w => w <> "") (split s).
Proof. apply split_go_nonempty. done. Qed.

Lemma append_assoc (a b c : string) : (a +:+ b) +:+ c = a +:+ (b +:+ c).
Proof.
  induction a as [|x a IH]; [reflexivity|].
  rewrite !append_cons. by rewrite IH.
Qed.

Lemma join_snoc (l : list string) x :
  l <> [] -> join " " (l ++ [x]) = join " " l +:+ " " +:+ x.
Proof.
  unfold join. induction l as [|a l IH]; [done|]. intros _.
  destruct l as [|b l].
  - reflexivity.
  - change ((a :: b :: l) ++ [x]) with (a :: (b :: l) ++ [x]).
    change (String.concat " " (a :: (b :: l) ++ [x]))
      with (a +:+ " " +:+ String.concat " " ((b :: l) ++ [x])).
    rewrite IH by done.
    change (String.concat " " (a :: b :: l))
      with (a +:+ " " +:+ String.concat " " (b :: l)).
    by rewrite <- !append_assoc.
Qed.

Lemma eqb_empty s : String.eqb s "" = false <-> s <> "".
Proof. destruct s; cbn; split; congruence. Qed.

(** The state of the wrap loop after the words [done]: nothing yet, or a
    pending line and the words so far joined into the lines. *)
Lemma wrap_loop_invariant font width (ws : list string) :
  Forall (fun w => w <> "") ws ->
  forall seen ls cur st',
    (ls = [] /\ cur = "" /\ seen = []) \/
    (cur <> "" /\ seen <> [] /\ join " " (ls ++ [cur]) = join " " seen) ->
    foldlM (wrap_step font width) (ls, cur) ws = Some st' ->
    join " " (Derived.flush st') = join " " (seen ++ ws).
Proof.
  induction 1 as [|w ws Hw Hws IH]; intros seen ls cur st' Hinv; cbn [foldlM].
  { intros [= <-]. rewrite app_nil_r. unfold Derived.flush. cbn [fst snd].
    destruct Hinv as [(-> & -> & ->)|(Hcur & _ & Hj)]; [reflexivity|].
    apply eqb_empty in Hcur. by rewrite Hcur. }
  unfold wrap_step at 2.
  destruct (bbox_width _ font) as [wd|]; [|discriminate]. cbn [mbind option_bind].
  replace (seen ++ w :: ws) with ((seen ++ [w]) ++ ws) by (by rewrite <- app_assoc).
  destruct Hinv as [(-> & -> & ->)|(Hcur & Hseen & Hj)].
  - cbn [String.eqb]. destruct (wd <=? width - 40); apply IH; right;
      (split; [exact Hw|split; [done|reflexivity]]).
  - apply eqb_empty in Hcur as Hcur'. rewrite Hcur'.
    assert (Hls : ls ++ [cur] <> []) by (by destruct ls).
    destruct (wd <=? width - 40); apply IH; right.
    + split; [by destruct cur|]. split; [by destruct seen|].
      rewrite (join_snoc seen) by exact Hseen. rewrite <- Hj.
      destruct ls as [|l0 ls]; [reflexivity|].
      rewrite !join_snoc by done. by rewrite <- !append_assoc.
    + split; [exact Hw|]. split; [by destruct seen|].
      rewrite (join_snoc seen) by exact Hseen. rewrite <- Hj.
      by rewrite join_snoc.
Qed.

(** X19: when the text metrics do not fail, the lines the word-wrap loop
    produces hold every word of the title in order: joined with single
    spaces they give the words of the title joined with single spaces. *)
Theorem wrap_keeps_words font width title st :
  foldlM (wrap_step font width) ([], "") (split title) = Some st ->
  join " " (Derived.flush st) = join " " (split title) /\
  Forall (fun w => w <> "") (split title).
Proof.
  intros Hloop. split; [|apply split_nonempty].
  apply (wrap_loop_invariant font width (split title) (split_nonempty title)
           [] [] "" st); [by left|exact Hloop].
Qed.

(** *** The drawing calls *)

Lemma gradient_drawn pair width height (ys : list Z) : forall img,
  exists lines,
    PIL.drawn (foldl (gradient_line pair width height) img ys)
    = PIL.drawn img ++ lines /\
    length lines = length ys /\ forallb Derived.is_line lines = true.
Proof.
  induction ys as [|y ys IH]; intros img; cbn [foldl].
  { exists []. by rewrite app_nil_r. }
  destruct (IH (gradient_line pair width height img y)) as (lines & Hd & Hlen & Hall).
  eexists (_ :: lines). rewrite Hd. unfold gradient_line. cbn [PIL.draw PIL.drawn].
  rewrite <- app_assoc. split; [reflexivity|]. cbn. by rewrite Hlen, Hall.
Qed.

Lemma title_loop_drawn font width (lines : list string) :
  forall s s' : PIL.Image * Z,
  foldlM (title_step font width) s lines = Some s' ->
  exists texts,
    PIL.drawn s'.1 = PIL.drawn s.1 ++ texts /\
    length texts = length lines /\ forallb Derived.is_text texts = true.
Proof.
  induction lines as [|line lines IH]; intros s s'; cbn [foldlM].
  { intros [= <-]. exists []. by rewrite app_nil_r. }
  destruct s as [img y]. unfold title_step at 2.
  destruct (bbox_width line font) as [w|]; [|discriminate].
  cbn [mbind option_bind]. intros Hrest.
  apply IH in Hrest as (texts & Hd & Hlen & Hall).
  eexists (_ :: texts). rewrite Hd. cbn [fst PIL.draw PIL.drawn].
  rewrite <- app_assoc. split; [reflexivity|]. cbn. by rewrite Hlen, Hall.
Qed.

Lemma gradient_mode pair width height (ys : list Z) : forall img,
  PIL.mode (foldl (gradient_line pair width height) img ys) = PIL.mode img.
Proof.
  induction ys as [|y ys IH]; intros img; [reflexivity|].
  cbn [foldl]. rewrite IH. reflexivity.
Qed.

Lemma title_loop_mode font width (lines : list string) :
  forall s s' : PIL.Image * Z,
  foldlM (title_step font width) s lines = Some s' ->
  PIL.mode s'.1 = PIL.mode s.1.
Proof.
  induction lines as [|line lines IH]; intros s s'; cbn [foldlM].
  - by intros [= <-].
  - destruct s as [img y]. unfold title_step at 2.
    destruct (bbox_width line font) as [w|]; [|discriminate].
    cbn [mbind option_bind]. intros Hrest. apply IH in Hrest. exact Hrest.
Qed.

(** X20: a placeholder that is drawn is the encoding of an image of the
    requested size on which exactly [height] gradient lines were drawn,
    then at most three title lines and at most one author line, the
    author line only for an author that is neither missing, empty nor
    "Unknown". *)
Theorem placeholder_drawing secret book_id title author width height data :
  draw_placeholder secret book_id title author width height = Some data ->
  exists img lines texts,
    data = PIL.save_png img true /\
    PIL.size img = (width, height) /\ PIL.mode img = "RGB" /\
    PIL.drawn img = lines ++ texts /\
    length lines = Z.to_nat height /\ forallb Derived.is_line lines = true /\
    forallb Derived.is_text texts = true /\
    (length texts <= 4)%nat /\
    (PyStr.or_else author "Unknown" = "Unknown" -> (length texts <= 3)%nat).
Proof.
  unfold draw_placeholder, PIL.new. cbn [fst snd].
  destruct ((0 <=? width) && (0 <=? height)); [|discriminate].
  cbn [mbind option_bind].
  destruct load_fonts as [title_font author_font].
  destruct title as [title|]; [|discriminate]. cbn [mbind option_bind].
  destruct (foldlM (wrap_step title_font width) ([], "") (split title))
    as [[title_lines current_line]|]; [|discriminate].
  cbn [mbind option_bind].
  match goal with
  | |- context [foldlM (title_step title_font width) (?i0, ?y0) ?ls] =>
      remember i0 as img0 eqn:Himg0; remember ls as kept eqn:Hkept
  end.
  assert (Hk : (length kept <= 3)%nat) by (subst kept; rewrite length_take; lia).
  destruct (gradient_drawn (choose_color_pair secret book_id) width height
              (seqZ 0 height)
              {| PIL.mode := "RGB"; PIL.size := (width, height);
                 PIL.color := [0; 0; 0]; PIL.drawn := [] |})
    as (lines & Hlines & Hlen & Hall).
  rewrite <- Himg0 in Hlines. cbn [PIL.drawn app] in Hlines.
  rewrite length_seqZ in Hlen.
  assert (Hsize0 : PIL.size img0 = (width, height))
    by (subst img0; apply gradient_size).
  assert (Hmode0 : PIL.mode img0 = "RGB") by (subst img0; apply gradient_mode).
  clear Himg0 Hkept.
  destruct (foldlM (title_step title_font width) (img0, _) kept)
    as [[img y_offset]|] eqn:Hloop; [|discriminate].
  pose proof (title_loop_size _ _ _ _ _ Hloop) as Hsize. cbn [fst] in Hsize.
  pose proof (title_loop_mode _ _ _ _ _ Hloop) as Hmode. cbn [fst] in Hmode.
  apply title_loop_drawn in Hloop as (texts & Hd & Htl & Htexts). cbn [fst] in Hd.
  cbn [mbind option_bind].
  assert (Hbase : PIL.size img = (width, height) /\ PIL.mode img = "RGB" /\
                  PIL.drawn img = lines ++ texts /\ (length texts <= 3)%nat).
  { rewrite Hsize, Hmode, Hd, Hlines, Htl. done. }
  destruct Hbase as (Bs & Bm & Bd & Bl).
  destruct author as [author|]; cbn [mbind option_bind];
    [|intros [= <-]; exists img, lines, texts; repeat split; try done; lia].
  destruct (String.eqb author "") eqn:Hempty; cbn [negb andb mbind option_bind];
    [intros [= <-]; exists img, lines, texts; repeat split; try done; lia|].
  destruct (String.eqb author "Unknown") eqn:Hunk; cbn [negb andb mbind option_bind];
    [intros [= <-]; exists img, lines, texts; repeat split; try done; lia|].
  destruct (bbox_width author author_font) as [w|]; [|discriminate].
  cbn [mbind option_bind]. intros [= <-].
  eexists _, lines, (texts ++ [_]). split; [reflexivity|].
  cbn [PIL.draw PIL.size PIL.mode PIL.drawn].
  rewrite Bd, app_assoc, forallb_app, Htexts, length_app.
  cbn [length Derived.is_text forallb andb].
  repeat split; try done; try lia.
  intros Hunknown. exfalso.
  destruct author as [|c author]; [discriminate|]. cbn [or_else] in Hunknown.
  rewrite Hunknown in Hunk. discriminate.
Qed.

End Placeholder.

(** ** The further properties on the sample inputs *)

Section MoreSamples.
Import PyStr ExtractCovers.

Lemma new_files_come_from_books_witness :
  exists f, f ∈ Epub.glob_epub [Sample.peter_pan] /\
            output_file f = "peter_pan.png" /\
            @Derived.written_for Sample.host (0, 0) true f
              (Sample.png_signature ++ [x01; x2c; x01; xc2]).
Proof.
  apply (@new_files_come_from_books Sample.host (0, 0) [Sample.peter_pan] ∅ true
           "peter_pan.png" (Sample.png_signature ++ [x01; x2c; x01; xc2]));
    vm_compute; reflexivity.
Defined.

Lemma extractor_listing_order_witness :
  @extract_all_covers Sample.host (0, 0) [Sample.peter_pan; Sample.broken] ∅ true
  = @extract_all_covers Sample.host (0, 0) [Sample.broken; Sample.peter_pan] ∅ true.
Proof.
  apply (@extractor_listing_order Sample.host).
  - apply perm_swap.
  - cbn. apply NoDup_cons. split; [|apply NoDup_singleton].
    intros Hin%list_elem_of_singleton. discriminate.
Defined.

Lemma extracted_cover_is_linked_witness :
  GenerateCatalog.coverImageUrl
    (GenerateCatalog.generate_book_entry true Sample.peter_pan "epubs"
       (Some (@extract_all_covers Sample.host (0, 0) [Sample.peter_pan] ∅ true).1.1))
  = Some ("BookCovers/"
          +:+ GenerateCatalog.id
                (GenerateCatalog.generate_book_entry true Sample.peter_pan "epubs"
                   (Some (@extract_all_covers Sample.host (0, 0)
                            [Sample.peter_pan] ∅ true).1.1))
          +:+ ".png").
Proof.
  apply (@extracted_cover_is_linked Sample.host (0, 0) [Sample.peter_pan] ∅ true
           true "epubs" Sample.peter_pan).
  - vm_compute. left.
  - reflexivity.
Defined.

Lemma wrap_keeps_words_witness :
  join " " (Derived.flush (["The Great"], "Adventure"))
    = join " " (split "The  Great Adventure") /\
  Forall (fun w => w <> "") (split "The  Great Adventure").
Proof.
  apply (@wrap_keeps_words Sample.host PIL.DefaultFont 100 "The  Great Adventure"
           (["The Great"], "Adventure")).
  vm_compute. reflexivity.
Defined.

Lemma placeholder_drawing_witness :
  exists img lines texts,
    Sample.png_signature ++ [x01; x2c; x01; xc2] = @PIL.save_png Sample.host img true /\
    PIL.size img = (300, 450) /\ PIL.mode img = "RGB" /\
    PIL.drawn img = lines ++ texts /\
    length lines = Z.to_nat 450 /\ forallb Derived.is_line lines = true /\
    forallb Derived.is_text texts = true /\
    (length texts <= 4)%nat /\
    (or_else (Some "J. M. Barrie") "Unknown" = "Unknown" -> (length texts <= 3)%nat).
Proof.
  apply (@placeholder_drawing Sample.host (0, 0) "peter_pan" (Some "Peter Pan")
           (Some "J. M. Barrie") 300 450).
  vm_compute. reflexivity.
Defined.

End MoreSamples.

(** ** Title keywords first *)

Section TitleRules.
Import PyStr GenerateCatalog.

(** X21: when a keyword of one of the five title rules occurs in the
    lower-cased title, the genre is the one of the first such rule,
    whatever the author and the tags. *)
Theorem title_keyword_decides_genre t rule a tags a' tags' :
  List.find (fun rule => any_in rule.1 (lower t)) Spec.title_rules = Some rule ->
  guess_genre t a tags = rule.2 /\
  guess_genre t a tags = guess_genre t a' tags'.
Proof.
  intros Hfind. rewrite !guess_genre_table. unfold Spec.genre_by_rules.
  rewrite Hfind. split; reflexivity.
Qed.

Lemma title_keyword_decides_genre_witness :
  guess_genre "Dragon Heart" "Jane Austen" ["children"] = "Fantasy" /\
  guess_genre "Dragon Heart" "Jane Austen" ["children"]
  = guess_genre "Dragon Heart" "Unknown" ["Classic"].
Proof.
  apply (title_keyword_decides_genre "Dragon Heart"
           (["fantasy"; "wizard"; "magic"; "dragon"], "Fantasy")).
  reflexivity.
Defined.

(** X22: the entry of a catalog has the genre Children's Literature
    exactly when no title rule matches its title and 'kid' occurs in the
    lower-cased title: with the fixed tag list, the tag half of the
    children rule never applies. *)
Theorem entry_childrens_literature avail f fb covers :
  genre (generate_book_entry avail f fb covers) = "Children's Literature" <->
  List.find (fun rule => any_in rule.1
                           (lower (title (generate_book_entry avail f fb covers))))
    Spec.title_rules = None /\
  contains "kid" (lower (title (generate_book_entry avail f fb covers))) = true.
Proof.
  cbn [generate_book_entry genre title]. rewrite guess_genre_table.
  unfold Spec.genre_by_rules, Spec.title_rules.
  replace (contains "children" (lower (join " " ["Classic"]))) with false
    by reflexivity.
  cbn [orb List.find fst snd].
  generalize (lower (or_else (md_title (extract_epub_metadata avail f))
                       (PyStr.title (replace "-" " " (PyPath.stem (Epub.name f)))))).
  generalize (lower (or_else (md_author (extract_epub_metadata avail f)) "Unknown")).
  intros al tl.
  repeat (destruct (any_in _ tl); [split; [discriminate|intros [? _]; discriminate]|]).
  destruct (contains "kid" tl); [split; done|].
  split; [|intros [_ ?]; discriminate].
  destruct (contains "dickens" al || contains "austen" al); discriminate.
Qed.

End TitleRules.

(** ** The extractor's entry point *)

Section ExtractorMain.
Import ExtractCovers.
Context `{PIL.Host}.

(** X23: the cover extractor exits with 1 and leaves the output directory
    as it was when the input directory is missing; otherwise it exits with
    0, keeps every file the output directory had, and adds at most one file
    per EPUB file. *)
Theorem extract_main_result secret args :
  match args_epubs_dir args with
  | None => main secret args = (1, args_output_dir args)
  | Some dir =>
      (main secret args).1 = 0 /\
      (forall name data, args_output_dir args !! name = Some data ->
                         (main secret args).2 !! name = Some data) /\
      (size (args_output_dir args) <= size (main secret args).2
       <= size (args_output_dir args) + length (Epub.glob_epub dir))%nat
  end.
Proof.
  unfold main. destruct (args_epubs_dir args) as [dir|]; [|reflexivity].
  cbn [fst snd]. split; [reflexivity|]. split.
  - intros name data. apply extract_all_covers_preserves.
  - pose proof (loop_counts secret (negb (args_no_placeholders args))) as Hloop.
    unfold extract_all_covers.
    destruct (Epub.glob_epub dir) as [|g files]; [cbn [fst length]; lia|].
    specialize (Hloop (Epub.sorted (g :: files)) (args_output_dir args, 0, 0)).
    cbn zeta in Hloop. cbn [fst snd] in Hloop. rewrite sorted_length in Hloop.
    lia.
Qed.

End ExtractorMain.

(** ** One cover per readable book *)

Section PlaceholderGuarantee.
Import PyStr ExtractCovers.
Context `{PIL.Host}.

Implicit Types (st : LoopState) (f : Epub.File) (book : Epub.Book).









End PlaceholderGuarantee.

Section PlaceholderGuaranteeSamples.
Import ExtractCovers.



End PlaceholderGuaranteeSamples.
